(** * Bucket endpoints of the satellite metainfo service

    Shallow embedding of [satellite/metainfo/endpoint_bucket.go]:
    [GetBucket], [CreateBucket], [DeleteBucket] with its helpers
    [deleteBucket], [deleteBucketNotEmpty], [deleteBucketObjects],
    [ListBuckets], [getAllowedBuckets], [convertProtoToBucket] and
    [convertBucketToProto].

    The endpoint talks to collaborators (bucket database, metabase,
    API-key validation, piece deletion, attribution).  Those that live in
    this repository outside of the embedded file are modelled from the
    specification, over an in-memory [World]; each such definition says so
    in its doc comment.  A collaborator failure is injected through the
    [Faults] record of the world.  Go's [(value, error)] results become the
    sum [Result]; an endpoint method runs in the state-and-error monad [M]. *)

From Stdlib Require Import ZArith List Bool String Ascii Lia.
Import ListNotations.
Open Scope string_scope.
Open Scope list_scope.
Open Scope Z_scope.

(** ** Errors *)

(** gRPC status codes used by the endpoint ([rpcstatus]). *)
Inductive Code :=
| NotFound
| Internal
| InvalidArgument
| AlreadyExists
| ResourceExhausted
| FailedPrecondition
| PermissionDenied
| Unauthenticated.

Definition Code_eqb (a b : Code) : bool :=
  match a, b with
  | NotFound, NotFound | Internal, Internal
  | InvalidArgument, InvalidArgument | AlreadyExists, AlreadyExists
  | ResourceExhausted, ResourceExhausted
  | FailedPrecondition, FailedPrecondition
  | PermissionDenied, PermissionDenied
  | Unauthenticated, Unauthenticated => true
  | _, _ => false
  end.

(** Go error values, by class.  Messages of [rpcstatus.Error] are not
    modelled; [Error.Wrap] keeps the class of the wrapped error, so it is
    the identity here. *)
Inductive GoError :=
| ErrBucketNotEmpty               (* metainfo.ErrBucketNotEmpty *)
| ErrBucketNotFound               (* storj.ErrBucketNotFound *)
| ErrOther (msg : string)         (* any other error value *)
| Status (c : Code).              (* rpcstatus.Error(c, ...) *)

Definition ErrBucketNotEmpty_Has (e : GoError) : bool :=
  match e with ErrBucketNotEmpty => true | _ => false end.

Definition ErrBucketNotFound_Has (e : GoError) : bool :=
  match e with ErrBucketNotFound => true | _ => false end.

Inductive Result (A : Type) :=
| Ok (a : A)
| Err (e : GoError).
Arguments Ok {A} a.
Arguments Err {A} e.

(** ** Wire types ([pb]) and records *)

Inductive CipherSuite := ENC_UNSPECIFIED | ENC_NULL | ENC_AESGCM | ENC_SECRETBOX.

Module Pb.
(** [pb.RedundancyScheme]; the integer fields are Go [int32]. *)
Record RedundancyScheme := {
  Type_ : Z;
  MinReq : Z;
  Total : Z;
  RepairThreshold : Z;
  SuccessThreshold : Z;
  ErasureShareSize : Z
}.

Record EncryptionParameters := {
  CipherSuite_ : CipherSuite;
  BlockSize : Z
}.

Record Bucket := {
  Name : string;
  CreatedAt : Z;
  PathCipher : CipherSuite;
  DefaultSegmentSize : Z;
  DefaultRedundancyScheme : RedundancyScheme;
  DefaultEncryptionParameters : EncryptionParameters
}.

Record BucketListItem := {
  ItemName : string;
  ItemCreatedAt : Z
}.
End Pb.

Module Buckets.
(** [buckets.Bucket], the minimal record returned by [GetMinimalBucket]. *)
Record Bucket := {
  Name : string;
  CreatedAt : Z
}.
End Buckets.

Module Storj.
(** [storj.Bucket], the record handed to the bucket database on create. *)
Record Bucket := {
  ID : Z;
  Name : string;
  ProjectID : Z;
  PartnerID : Z;
  Created : Z
}.
End Storj.

(** Go [int32] wrap-around. *)
Definition wrap32 (x : Z) : Z := (x + 2 ^ 31) mod 2 ^ 32 - 2 ^ 31.

(** [convertBucketToProto]: the per-bucket encryption and redundancy
    fields are always the satellite defaults. *)
Definition convertBucketToProto (bucket : Buckets.Bucket)
    (rs : Pb.RedundancyScheme) (maxSegmentSize : Z) : Result (option Pb.Bucket) :=
  if (String.length (Buckets.Name bucket) =? 0)%nat then Ok None
  else Ok (Some {|
    Pb.Name := Buckets.Name bucket;
    Pb.CreatedAt := Buckets.CreatedAt bucket;
    Pb.PathCipher := ENC_AESGCM;
    Pb.DefaultSegmentSize := maxSegmentSize;
    Pb.DefaultRedundancyScheme := rs;
    Pb.DefaultEncryptionParameters := {|
      Pb.CipherSuite_ := ENC_AESGCM;
      Pb.BlockSize := wrap32 (Pb.ErasureShareSize rs * Pb.MinReq rs)
    |}
  |}).

(** ** Credentials *)

Inductive Op := ActionRead | ActionWrite | ActionList | ActionDelete.

Definition Op_eqb (a b : Op) : bool :=
  match a, b with
  | ActionRead, ActionRead | ActionWrite, ActionWrite
  | ActionList, ActionList | ActionDelete, ActionDelete => true
  | _, _ => false
  end.

(** [macaroon.Action]. *)
Record Action := {
  ActOp : Op;
  ActBucket : string;
  ActTime : Z
}.

(** An API key as seen by the endpoint, after parsing: whether it verifies
    at all, the project it resolves to, the operations its caveats leave
    allowed, an optional bucket restriction and an optional expiry. *)
Record Credential := {
  cr_valid : bool;
  cr_project : Z;
  cr_ops : list Op;
  cr_buckets : option (list string);
  cr_not_after : option Z
}.

(** Modelled from the spec: the capability check of the API-key
    validation code ([validateAuth]/[validateAuthN] in the metainfo
    package), "credential lacks the mandatory capability for the given
    resource/action/time".  An action on no bucket (listing) passes a
    bucket restriction; the listing is filtered later. *)
Definition allows (cred : Credential) (act : Action) : bool :=
  cr_valid cred
  && existsb (Op_eqb (ActOp act)) (cr_ops cred)
  && match cr_buckets cred with
     | None => true
     | Some l => String.eqb (ActBucket act) EmptyString
                 || existsb (String.eqb (ActBucket act)) l
     end
  && match cr_not_after cred with
     | None => true
     | Some t => ActTime act <=? t
     end.

Record KeyInfo := { ProjectID : Z }.

(** [verifyPermission]. *)
Record verifyPermission := {
  action : Action;
  optional : bool
}.

(** Modelled from the spec: [validateAuth], "returns the resolved
    principal or a structured denial". *)
Definition validateAuth (cred : Credential) (act : Action) : Result KeyInfo :=
  if negb (cr_valid cred) then Err (Status Unauthenticated)
  else if allows cred act then Ok {| ProjectID := cr_project cred |}
  else Err (Status PermissionDenied).

(** Modelled from the spec: [validateAuthN], one mandatory action and
    optional actions whose outcome is reported as booleans (in order). *)
Definition validateAuthN (cred : Credential) (perms : list verifyPermission)
    : Result (KeyInfo * list bool) :=
  if negb (cr_valid cred) then Err (Status Unauthenticated)
  else if forallb (fun p => optional p || allows cred (action p)) perms
  then Ok ({| ProjectID := cr_project cred |},
           map (fun p => allows cred (action p)) (filter optional perms))
  else Err (Status PermissionDenied).

(** ** The collaborators' state *)

(** An object of the metabase with the piece locations of its segments. *)
Record Object := {
  ob_project : Z;
  ob_bucket : string;
  ob_key : string;
  ob_pieces : list Z
}.

(** Collaborator failures.  [f_walk = Some n]: the metabase fails when it
    is about to delete the object following the first [n]; [f_pieces]: the
    piece-deletion notifier loses its messages. *)
Record Faults := {
  f_get : bool;
  f_has : bool;
  f_maxb : bool;
  f_count : bool;
  f_create : bool;
  f_attr : bool;
  f_empty : bool;
  f_delete : bool;
  f_walk : option nat;
  f_pieces : bool;
  f_list : bool
}.

Definition no_faults : Faults :=
  {| f_get := false; f_has := false; f_maxb := false; f_count := false;
     f_create := false; f_attr := false; f_empty := false; f_delete := false;
     f_walk := None; f_pieces := false; f_list := false |}.

Record World := {
  catalog : list (Z * Buckets.Bucket);   (* bucket database: (project, record) *)
  objects : list Object;                 (* metabase *)
  piece_queue : list Z;                  (* pieces handed to the deletion workers *)
  max_override : list (Z * Z);           (* per-project bucket limit *)
  faults : Faults
}.

Definition set_catalog (c : list (Z * Buckets.Bucket)) (w : World) : World :=
  {| catalog := c; objects := objects w; piece_queue := piece_queue w;
     max_override := max_override w; faults := faults w |}.

Definition set_objects (o : list Object) (w : World) : World :=
  {| catalog := catalog w; objects := o; piece_queue := piece_queue w;
     max_override := max_override w; faults := faults w |}.

Definition set_piece_queue (q : list Z) (w : World) : World :=
  {| catalog := catalog w; objects := objects w; piece_queue := q;
     max_override := max_override w; faults := faults w |}.

(** ** A state and error monad *)

Definition M (A : Type) : Type := World -> Result A * World.

Definition ret {A} (a : A) : M A := fun w => (Ok a, w).
Definition fail {A} (e : GoError) : M A := fun w => (Err e, w).
Definition lift {A} (r : Result A) : M A := fun w => (r, w).
Definition bind {A B} (m : M A) (k : A -> M B) : M B :=
  fun w => match m w with
           | (Ok a, w') => k a w'
           | (Err e, w') => (Err e, w')
           end.
(** Run [m] and hand its [(value, error)] to the continuation. *)
Definition attempt {A} (m : M A) : M (Result A) :=
  fun w => match m w with (r, w') => (Ok r, w') end.

Notation "x <- m ;; k" := (bind m (fun x => k))
  (at level 61, m at next level, right associativity).
Notation "' p <- m ;; k" := (bind m (fun x => match x with p => k end))
  (at level 61, p pattern, m at next level, right associativity).

(** ** Bucket database ([satellite/buckets]) *)

Definition bucket_at (proj : Z) (name : string) (e : Z * Buckets.Bucket) : bool :=
  (fst e =? proj) && String.eqb (Buckets.Name (snd e)) name.

(** Modelled from the spec: [buckets.GetMinimalBucket],
    "Get(name, projectID) -> Bucket | NotFound". *)
Definition GetMinimalBucket (name : string) (proj : Z) : M Buckets.Bucket :=
  fun w =>
    if f_get (faults w) then (Err (ErrOther "db"), w)
    else match find (bucket_at proj name) (catalog w) with
         | Some e => (Ok (snd e), w)
         | None => (Err ErrBucketNotFound, w)
         end.

(** Modelled from the spec: [buckets.HasBucket], "Exists(name, projectID) -> bool". *)
Definition HasBucket (name : string) (proj : Z) : M bool :=
  fun w =>
    if f_has (faults w) then (Err (ErrOther "db"), w)
    else (Ok (existsb (bucket_at proj name) (catalog w)), w).

(** Modelled from the spec: [buckets.CountBuckets], "Count(projectID) -> int". *)
Definition CountBuckets (proj : Z) : M Z :=
  fun w =>
    if f_count (faults w) then (Err (ErrOther "db"), w)
    else (Ok (Z.of_nat (List.length (filter (fun e => fst e =? proj) (catalog w)))), w).

(** Modelled from the spec: [projects.GetMaxBuckets], "an optional
    per-project bucket-count override". *)
Definition GetMaxBuckets (proj : Z) : M (option Z) :=
  fun w =>
    if f_maxb (faults w) then (Err (ErrOther "db"), w)
    else (Ok (option_map snd (find (fun e => fst e =? proj) (max_override w))), w).

(** Modelled from the spec: [buckets.DeleteBucket], "unconditional record
    removal ... Deleted | NotFound". *)
Definition buckets_DeleteBucket (name : string) (proj : Z) : M unit :=
  fun w =>
    if f_delete (faults w) then (Err (ErrOther "db"), w)
    else if existsb (bucket_at proj name) (catalog w)
    then (Ok tt, set_catalog (filter (fun e => negb (bucket_at proj name e)) (catalog w)) w)
    else (Err ErrBucketNotFound, w).

(** Modelled from the spec: [buckets.CreateBucket], "Create(bucket) ->
    Bucket | AlreadyExists | Internal", atomic on (project, name); the
    database stamps the creation time. *)
Definition buckets_CreateBucket (now : Z) (b : Storj.Bucket) : M Storj.Bucket :=
  fun w =>
    if f_create (faults w) then (Err (ErrOther "db"), w)
    else if existsb (bucket_at (Storj.ProjectID b) (Storj.Name b)) (catalog w)
    then (Err (ErrOther "already exists"), w)
    else
      let created := {| Storj.ID := Storj.ID b; Storj.Name := Storj.Name b;
                        Storj.ProjectID := Storj.ProjectID b;
                        Storj.PartnerID := Storj.PartnerID b; Storj.Created := now |} in
      (Ok created,
       set_catalog (catalog w ++ [(Storj.ProjectID b,
                     {| Buckets.Name := Storj.Name b; Buckets.CreatedAt := now |})]) w).

(** ** Metabase and piece deletion *)

Definition in_bucket (proj : Z) (name : string) (o : Object) : bool :=
  (ob_project o =? proj) && String.eqb (ob_bucket o) name.

Definition same_object (o o' : Object) : bool :=
  (ob_project o =? ob_project o') && String.eqb (ob_bucket o) (ob_bucket o')
  && String.eqb (ob_key o) (ob_key o').

(** Modelled from the spec: [metabase.BucketEmpty], "queries ... for any
    live object/segment under the bucket location". *)
Definition BucketEmpty (proj : Z) (name : string) : M bool :=
  fun w =>
    if f_empty (faults w) then (Err (ErrOther "metabase"), w)
    else (Ok (negb (existsb (in_bucket proj name) (objects w))), w).

(** The walk of [metabase.DeleteBucketObjects]: delete the objects one by
    one, handing the piece locations of each to the [DeletePieces] callback;
    an error of the callback or of the store ends the walk. *)
Fixpoint drain (DeletePieces : list Z -> World -> option GoError * World)
    (fail_at : option nat) (k : nat) (todo : list Object) (w : World)
    : Result Z * World :=
  match todo with
  | [] => (Ok (Z.of_nat k), w)
  | o :: rest =>
      if match fail_at with Some n => Nat.eqb n k | None => false end
      then (Err (ErrOther "metabase"), w)
      else
        let w1 := set_objects (filter (fun o' => negb (same_object o o')) (objects w)) w in
        match DeletePieces (ob_pieces o) w1 with
        | (Some e, w2) => (Err e, w2)
        | (None, w2) => drain DeletePieces fail_at (S k) rest w2
        end
  end.

(** Modelled from the spec: [metabase.DeleteBucketObjects], "enumerate and
    delete all objects under the bucket location, streaming back, for each
    deleted object, the physical piece locations"; returns the number of
    deleted objects. *)
Definition metabase_DeleteBucketObjects (proj : Z) (name : string)
    (DeletePieces : list Z -> World -> option GoError * World) : M Z :=
  fun w => drain DeletePieces (f_walk (faults w)) O
                 (filter (in_bucket proj name) (objects w)) w.

(** Modelled from the spec: [deleteSegmentPieces], "a one-way message send
    into a queue ... with no acknowledgment"; a failure loses the message
    and reports nothing (the Go method has no result). *)
Definition deleteSegmentPieces (deleted : list Z) (w : World) : World :=
  if f_pieces (faults w) then w
  else set_piece_queue (piece_queue w ++ deleted) w.

(** Modelled from the spec: [ensureAttribution], attribution bookkeeping;
    its failures surface as Internal. *)
Definition ensureAttribution : M unit :=
  fun w => if f_attr (faults w) then (Err (Status Internal), w) else (Ok tt, w).

Definition is_name_char (c : ascii) : bool :=
  let n := nat_of_ascii c in
  ((97 <=? n) && (n <=? 122))%nat || ((48 <=? n) && (n <=? 57))%nat
  || (n =? 45)%nat || (n =? 46)%nat.

(** Modelled from the spec: [validateBucket], "lowercase alphanumerics,
    hyphen, period; length 3-63". *)
Definition validateBucket (name : string) : option GoError :=
  if ((3 <=? String.length name) && (String.length name <=? 63))%nat
     && forallb is_name_char (list_ascii_of_string name)
  then None
  else Some (ErrOther "invalid bucket name").

(** [macaroon.AllowedBuckets]. *)
Record AllowedBuckets := {
  All : bool;
  AllowedNames : list string
}.

(** [storj.BucketListOptions]. *)
Record BucketListOptions := {
  Cursor : string;
  Limit : Z;
  Direction : Z
}.

Fixpoint insert_by_name (b : Buckets.Bucket) (l : list Buckets.Bucket) :=
  match l with
  | [] => [b]
  | x :: r => if String.leb (Buckets.Name b) (Buckets.Name x) then b :: l
              else x :: insert_by_name b r
  end.

Definition sort_by_name (l : list Buckets.Bucket) : list Buckets.Bucket :=
  fold_right insert_by_name [] l.

(** Modelled from the spec: [buckets.ListBuckets], "lexicographic
    pagination by name; direction controls ascending/descending traversal
    from cursor (exclusive); items length <= limit; hasMore true iff
    additional items exist beyond the page", filtered by the allow-list. *)
Definition buckets_ListBuckets (proj : Z) (opts : BucketListOptions)
    (allowed : AllowedBuckets) : M (list Buckets.Bucket * bool) :=
  fun w =>
    if f_list (faults w) then (Err (ErrOther "db"), w)
    else
      let mine := map snd (filter (fun e => fst e =? proj) (catalog w)) in
      let ok := filter (fun b => All allowed
                          || existsb (String.eqb (Buckets.Name b)) (AllowedNames allowed)) mine in
      let sorted := sort_by_name ok in
      let from :=
        if 0 <=? Direction opts
        then filter (fun b => String.ltb (Cursor opts) (Buckets.Name b)) sorted
        else rev (filter (fun b => String.ltb (Buckets.Name b) (Cursor opts)) sorted) in
      let n := Z.to_nat (Limit opts) in
      (Ok (firstn n from, Nat.ltb n (List.length from)), w).

(** ** Requests and responses *)

Module BucketGetRequest.
Record t := { Header : Credential; Name : string }.
End BucketGetRequest.

Module BucketCreateRequest.
(** The client may send redundancy and encryption preferences. *)
Record t := {
  Header : Credential;
  Name : string;
  PartnerId : string;
  PathCipher : CipherSuite;
  DefaultSegmentSize : Z;
  DefaultRedundancyScheme : option Pb.RedundancyScheme;
  DefaultEncryptionParameters : option Pb.EncryptionParameters
}.
End BucketCreateRequest.

Module BucketDeleteRequest.
Record t := { Header : Credential; Name : string; DeleteAll : bool }.
End BucketDeleteRequest.

Module BucketListRequest.
Record t := { Header : Credential; Cursor : string; Limit : Z; Direction : Z }.
End BucketListRequest.

Record BucketGetResponse := { GetBucketField : option Pb.Bucket }.
Record BucketCreateResponse := { CreateBucketField : option Pb.Bucket }.
Record BucketDeleteResponse := {
  DeleteBucketField : option Pb.Bucket;
  DeletedObjectsCount : Z
}.
Record BucketListResponse := {
  Items : list Pb.BucketListItem;
  More : bool
}.

(** The endpoint's configuration. *)
Record Endpoint := {
  defaultRS : Pb.RedundancyScheme;
  MaxSegmentSize : Z;
  ProjectLimits_MaxBuckets : Z
}.

(** ** The endpoint *)

(** [GetBucket]. *)
Definition GetBucket (endpoint : Endpoint) (now : Z) (req : BucketGetRequest.t)
    : M BucketGetResponse :=
  keyInfo <- lift (validateAuth (BucketGetRequest.Header req)
               {| ActOp := ActionRead; ActBucket := BucketGetRequest.Name req; ActTime := now |}) ;;
  r <- attempt (GetMinimalBucket (BucketGetRequest.Name req) (ProjectID keyInfo)) ;;
  match r with
  | Err e => if ErrBucketNotFound_Has e then fail (Status NotFound) else fail (Status Internal)
  | Ok bucket =>
      convBucket <- lift (convertBucketToProto bucket (defaultRS endpoint) (MaxSegmentSize endpoint)) ;;
      ret {| GetBucketField := convBucket |}
  end.

(** [isBucketEmpty]. *)
Definition isBucketEmpty (projectID : Z) (bucketName : string) : M bool :=
  BucketEmpty projectID bucketName.

(** [deleteBucket]. *)
Definition deleteBucket (bucketName : string) (projectID : Z) : M unit :=
  empty <- isBucketEmpty projectID bucketName ;;
  if negb empty then fail ErrBucketNotEmpty
  else buckets_DeleteBucket bucketName projectID.

(** The [DeletePieces] callback of [deleteBucketObjects]. *)
Definition DeletePieces_cb (deleted : list Z) (w : World) : option GoError * World :=
  (None, deleteSegmentPieces deleted w).

(** [deleteBucketObjects]. *)
Definition deleteBucketObjects (projectID : Z) (bucketName : string) : M Z :=
  metabase_DeleteBucketObjects projectID bucketName DeletePieces_cb.

(** Other requests acting on the collaborators at this point. *)
Definition concurrently (interleave : World -> World) : M unit :=
  fun w => (Ok tt, interleave w).

(** [deleteBucketNotEmpty]: the Go triple [([]byte, int64, error)];
    [interleave] is what other callers do between the drain and the
    removal of the record. *)
Definition deleteBucketNotEmpty (interleave : World -> World) (projectID : Z)
    (bucketName : string) : M (option string * Z * option GoError) :=
  r <- attempt (deleteBucketObjects projectID bucketName) ;;
  match r with
  | Err _ => ret (None, 0, Some (Status Internal))
  | Ok deletedCount =>
      _ <- concurrently interleave ;;
      r2 <- attempt (deleteBucket bucketName projectID) ;;
      match r2 with
      | Err e =>
          if ErrBucketNotEmpty_Has e then ret (None, deletedCount, Some (Status FailedPrecondition))
          else if ErrBucketNotFound_Has e then ret (Some bucketName, 0, None)
          else ret (None, deletedCount, Some (Status Internal))
      | Ok _ => ret (Some bucketName, deletedCount, None)
      end
  end.

Definition deletePermissions (name : string) (now : Z) : list verifyPermission :=
  [ {| action := {| ActOp := ActionDelete; ActBucket := name; ActTime := now |}; optional := false |};
    {| action := {| ActOp := ActionRead; ActBucket := name; ActTime := now |}; optional := true |};
    {| action := {| ActOp := ActionList; ActBucket := name; ActTime := now |}; optional := true |} ].

(** [DeleteBucket]. *)
Definition DeleteBucket (endpoint : Endpoint) (interleave : World -> World) (now : Z)
    (req : BucketDeleteRequest.t) : M BucketDeleteResponse :=
  let name := BucketDeleteRequest.Name req in
  '(keyInfo, flags) <- lift (validateAuthN (BucketDeleteRequest.Header req) (deletePermissions name now)) ;;
  let canRead := nth 0 flags false in
  let canList := nth 1 flags false in
  match validateBucket name with
  | Some _ => fail (Status InvalidArgument)
  | None =>
    convBucket <-
      (if canRead || canList then
         r <- attempt (GetMinimalBucket name (ProjectID keyInfo)) ;;
         match r with
         | Err e => if ErrBucketNotFound_Has e then fail (Status NotFound) else fail e
         | Ok bucket => lift (convertBucketToProto bucket (defaultRS endpoint) (MaxSegmentSize endpoint))
         end
       else ret None) ;;
    r <- attempt (deleteBucket name (ProjectID keyInfo)) ;;
    match r with
    | Ok _ => ret {| DeleteBucketField := convBucket; DeletedObjectsCount := 0 |}
    | Err e =>
        if negb canRead && negb canList then
          ret {| DeleteBucketField := None; DeletedObjectsCount := 0 |}
        else if ErrBucketNotEmpty_Has e then
          if negb (BucketDeleteRequest.DeleteAll req) || negb canList then
            fail (Status FailedPrecondition)
          else
            '(_, deletedObjCount, err) <- deleteBucketNotEmpty interleave (ProjectID keyInfo) name ;;
            match err with
            | Some e' => fail e'
            | None => ret {| DeleteBucketField := convBucket; DeletedObjectsCount := deletedObjCount |}
            end
        else if ErrBucketNotFound_Has e then
          ret {| DeleteBucketField := convBucket; DeletedObjectsCount := 0 |}
        else fail (Status Internal)
    end
  end.

(** [getAllowedBuckets]; [key.GetAllowedBuckets] of the macaroon library
    gives every bucket unless the key restricts buckets. *)
Definition getAllowedBuckets (header : Credential) (act : Action) : Result AllowedBuckets :=
  Ok match cr_buckets header with
     | None => {| All := true; AllowedNames := [] |}
     | Some l => {| All := false; AllowedNames := l |}
     end.

(** [ListBuckets]. *)
Definition ListBuckets (endpoint : Endpoint) (now : Z) (req : BucketListRequest.t)
    : M BucketListResponse :=
  let act := {| ActOp := ActionRead; ActBucket := EmptyString; ActTime := now |} in
  keyInfo <- lift (validateAuth (BucketListRequest.Header req) act) ;;
  allowedBuckets <- lift (getAllowedBuckets (BucketListRequest.Header req) act) ;;
  let listOpts := {| Cursor := BucketListRequest.Cursor req; Limit := BucketListRequest.Limit req;
                     Direction := BucketListRequest.Direction req |} in
  '(items, more) <- buckets_ListBuckets (ProjectID keyInfo) listOpts allowedBuckets ;;
  ret {| Items := map (fun item => {| Pb.ItemName := Buckets.Name item;
                                      Pb.ItemCreatedAt := Buckets.CreatedAt item |}) items;
         More := more |}.

(** [CountBuckets] of the endpoint, with the Go pair [(count, err)]. *)
Definition endpoint_CountBuckets (projectID : Z) : M (Z * option GoError) :=
  r <- attempt (CountBuckets projectID) ;;
  match r with
  | Err e => ret (0, Some e)
  | Ok count => ret (count, None)
  end.

(** ** Bucket creation

    The two UUID primitives of [storj.io/common/uuid] are parameters:
    [uuid_New] is the draw of [uuid.New()], [UnmarshalJSON b] is the value
    a zero [uuid.UUID] holds after [UnmarshalJSON(b)], with its error. *)
Section Create.
Variable uuid_New : Result Z.
Variable UnmarshalJSON : string -> Z * option GoError.

Definition IsZero (u : Z) : bool := u =? 0.

(** [convertProtoToBucket]. *)
Definition convertProtoToBucket (req : BucketCreateRequest.t) (projectID : Z)
    : Result Storj.Bucket :=
  match uuid_New with
  | Err e => Err e
  | Ok bucketID =>
      let '(partnerID, err) := UnmarshalJSON (BucketCreateRequest.PartnerId req) in
      if match err with Some _ => true | None => false end && negb (IsZero partnerID)
      then Err (ErrOther "Invalid uuid")
      else Ok {| Storj.ID := bucketID; Storj.Name := BucketCreateRequest.Name req;
                 Storj.ProjectID := projectID; Storj.PartnerID := partnerID;
                 Storj.Created := 0 |}
  end.

(** [CreateBucket]. *)
Definition CreateBucket (endpoint : Endpoint) (now : Z) (req : BucketCreateRequest.t)
    : M BucketCreateResponse :=
  let name := BucketCreateRequest.Name req in
  keyInfo <- lift (validateAuth (BucketCreateRequest.Header req)
               {| ActOp := ActionWrite; ActBucket := name; ActTime := now |}) ;;
  match validateBucket name with
  | Some _ => fail (Status InvalidArgument)
  | None =>
    r <- attempt (HasBucket name (ProjectID keyInfo)) ;;
    match r with
    | Err _ => fail (Status Internal)
    | Ok true => _ <- ensureAttribution ;; fail (Status AlreadyExists)
    | Ok false =>
      maxBuckets <- GetMaxBuckets (ProjectID keyInfo) ;;
      let maxBuckets := match maxBuckets with
                        | None => ProjectLimits_MaxBuckets endpoint
                        | Some m => m
                        end in
      bucketCount <- CountBuckets (ProjectID keyInfo) ;;
      if maxBuckets <=? bucketCount then fail (Status ResourceExhausted)
      else
        match convertProtoToBucket req (ProjectID keyInfo) with
        | Err _ => fail (Status InvalidArgument)
        | Ok bucketReq =>
          r <- attempt (buckets_CreateBucket now bucketReq) ;;
          match r with
          | Err _ => fail (Status Internal)
          | Ok bucket =>
            _ <- ensureAttribution ;;
            match convertBucketToProto {| Buckets.Name := Storj.Name bucket;
                                          Buckets.CreatedAt := Storj.Created bucket |}
                    (defaultRS endpoint) (MaxSegmentSize endpoint) with
            | Err _ => fail (Status Internal)
            | Ok convBucket => ret {| CreateBucketField := convBucket |}
            end
          end
        end
    end
  end.
End Create.

(** ** Sample data *)

Definition rs0 : Pb.RedundancyScheme :=
  {| Pb.Type_ := 1; Pb.MinReq := 29; Pb.Total := 110; Pb.RepairThreshold := 35;
     Pb.SuccessThreshold := 80; Pb.ErasureShareSize := 256 |}.

Definition ep0 : Endpoint :=
  {| defaultRS := rs0; MaxSegmentSize := 67108864; ProjectLimits_MaxBuckets := 100 |}.

Definition cred_of (ops : list Op) : Credential :=
  {| cr_valid := true; cr_project := 1; cr_ops := ops; cr_buckets := None; cr_not_after := None |}.

Definition obj (b k : string) (p : Z) : Object :=
  {| ob_project := 1; ob_bucket := b; ob_key := k; ob_pieces := [p] |}.

(** Project 1 holds bucket "cakes" with three objects. *)
Definition world0 : World :=
  {| catalog := [(1, {| Buckets.Name := "cakes"; Buckets.CreatedAt := 7 |})];
     objects := [obj "cakes" "a" 10; obj "cakes" "b" 11; obj "cakes" "c" 12];
     piece_queue := []; max_override := []; faults := no_faults |}.

(** Another caller removes the record of "cakes". *)
Definition drop_cakes (w : World) : World :=
  set_catalog (filter (fun e => negb (bucket_at 1 "cakes" e)) (catalog w)) w.

Definition del_req (ops : list Op) (all : bool) : BucketDeleteRequest.t :=
  {| BucketDeleteRequest.Header := cred_of ops; BucketDeleteRequest.Name := "cakes";
     BucketDeleteRequest.DeleteAll := all |}.

(** ** Proof tools *)

(** Case analysis on every [match] and [if] in a hypothesis of the form
    [run = (value, world)], discarding the impossible branches. *)
Ltac step_hyp H :=
  repeat (simpl in H;
          match type of H with
          | context [match ?x with _ => _ end] =>
              let E := fresh "E" in destruct x eqn:E
          end; try discriminate H).

Lemma validateBucket_nonempty (name : string) :
  validateBucket name = None -> (String.length name =? 0)%nat = false.
Proof.
  unfold validateBucket.
  destruct ((3 <=? String.length name) && (String.length name <=? 63))%nat eqn:E;
    simpl; [|discriminate].
  intros _. apply andb_true_iff in E as [E _].
  apply Nat.leb_le in E. apply Nat.eqb_neq. lia.
Qed.

(** The satellite defaults a wire bucket carries. *)
Definition has_defaults (endpoint : Endpoint) (pb : Pb.Bucket) : Prop :=
  Pb.PathCipher pb = ENC_AESGCM
  /\ Pb.DefaultSegmentSize pb = MaxSegmentSize endpoint
  /\ Pb.DefaultRedundancyScheme pb = defaultRS endpoint
  /\ Pb.DefaultEncryptionParameters pb =
       {| Pb.CipherSuite_ := ENC_AESGCM;
          Pb.BlockSize := wrap32 (Pb.ErasureShareSize (defaultRS endpoint)
                                  * Pb.MinReq (defaultRS endpoint)) |}.

Lemma convert_nonempty (endpoint : Endpoint) (b : Buckets.Bucket) :
  (String.length (Buckets.Name b) =? 0)%nat = false ->
  exists pb, convertBucketToProto b (defaultRS endpoint) (MaxSegmentSize endpoint) = Ok (Some pb)
    /\ Pb.Name pb = Buckets.Name b /\ Pb.CreatedAt pb = Buckets.CreatedAt b
    /\ has_defaults endpoint pb.
Proof.
  intros H. unfold convertBucketToProto. rewrite H.
  eexists. split; [reflexivity|]. unfold has_defaults; simpl; repeat split.
Qed.

Lemma convert_some_defaults (endpoint : Endpoint) (b : Buckets.Bucket) (pb : Pb.Bucket) :
  convertBucketToProto b (defaultRS endpoint) (MaxSegmentSize endpoint) = Ok (Some pb) ->
  has_defaults endpoint pb.
Proof.
  unfold convertBucketToProto.
  destruct (String.length (Buckets.Name b) =? 0)%nat; intros H; inversion H; subst.
  unfold has_defaults; simpl; repeat split.
Qed.

Lemma buckets_CreateBucket_name (now : Z) (b b' : Storj.Bucket) (w w' : World) :
  buckets_CreateBucket now b w = (Ok b', w') -> Storj.Name b' = Storj.Name b.
Proof.
  unfold buckets_CreateBucket. intros H. step_hyp H. inversion H. reflexivity.
Qed.

Lemma convertProtoToBucket_name uuid_New UnmarshalJSON req projectID b :
  convertProtoToBucket uuid_New UnmarshalJSON req projectID = Ok b ->
  Storj.Name b = BucketCreateRequest.Name req.
Proof.
  unfold convertProtoToBucket. intros H. step_hyp H. inversion H. reflexivity.
Qed.

(** * Claims *)

(** C3: every bucket record with a non-empty name is converted to a wire
    bucket whose cipher, redundancy scheme, segment size and encryption
    parameters are the satellite defaults; GetBucket answers with such a
    wire bucket, and CreateBucket does too whatever the client sent. *)
Theorem C3_wire_bucket_has_defaults (endpoint : Endpoint) :
  (forall b : Buckets.Bucket, Buckets.Name b <> EmptyString ->
     exists pb, convertBucketToProto b (defaultRS endpoint) (MaxSegmentSize endpoint) = Ok (Some pb)
       /\ Pb.Name pb = Buckets.Name b /\ Pb.CreatedAt pb = Buckets.CreatedAt b
       /\ has_defaults endpoint pb)
  /\ (forall now req w r w' pb,
        GetBucket endpoint now req w = (Ok r, w') -> GetBucketField r = Some pb ->
        has_defaults endpoint pb)
  /\ (forall uuid_New UnmarshalJSON now req w r w',
        CreateBucket uuid_New UnmarshalJSON endpoint now req w = (Ok r, w') ->
        exists pb, CreateBucketField r = Some pb /\ has_defaults endpoint pb
          /\ Pb.Name pb = BucketCreateRequest.Name req).
Proof.
  split; [|split].
  - intros b Hb. apply convert_nonempty.
    destruct (Buckets.Name b); [congruence|reflexivity].
  - intros now req w r w' pb H Hpb.
    unfold GetBucket, bind, lift, attempt, ret, fail in H. step_hyp H.
    inversion H; subst. simpl in Hpb. subst.
    eapply convert_some_defaults. eassumption.
  - intros uuid_New UnmarshalJSON now req w r w' H.
    unfold CreateBucket, bind, lift, attempt, ret, fail in H.
    step_hyp H.
    inversion H; subst; simpl.
    destruct (buckets_CreateBucket now a4 w2) as [r6 w6] eqn:Ec.
    inversion E11; subst.
    apply buckets_CreateBucket_name in Ec. apply convertProtoToBucket_name in E10.
    destruct (convert_nonempty endpoint
               {| Buckets.Name := Storj.Name a6; Buckets.CreatedAt := Storj.Created a6 |})
      as (pb & Hc & Hn & _ & Hd).
    { simpl. rewrite Ec, E10. apply validateBucket_nonempty. assumption. }
    rewrite Hc in E16. inversion E16; subst.
    exists pb. split; [reflexivity|split; [exact Hd|simpl in Hn; congruence]].
Qed.

(** Evaluation of the monadic glue only; the collaborators stay folded. *)
Ltac glue :=
  cbv beta iota zeta delta [nth negb orb andb ErrBucketNotEmpty_Has
                              ErrBucketNotFound_Has ret fail lift bind attempt concurrently ProjectID].

Ltac glue_in H :=
  cbv beta iota zeta delta [nth negb orb andb ErrBucketNotEmpty_Has
                              ErrBucketNotFound_Has ret fail lift bind attempt concurrently
                              ProjectID] in H.

(** Case analysis on the innermost [match]es of a run [H], the monadic
    glue evaluated in between; impossible branches are discarded. *)
Ltac crunch H :=
  repeat (glue_in H;
          match type of H with
          | context [match ?x with _ => _ end] =>
              lazymatch x with
              | context [match _ with _ => _ end] => fail
              | _ => let E := fresh "E" in destruct x eqn:E
              end
          end; try discriminate H).

Lemma validateAuthN_delete (cred : Credential) (name : string) (now : Z) :
  allows cred {| ActOp := ActionDelete; ActBucket := name; ActTime := now |} = true ->
  validateAuthN cred (deletePermissions name now) =
  Ok ({| ProjectID := cr_project cred |},
      [allows cred {| ActOp := ActionRead; ActBucket := name; ActTime := now |};
       allows cred {| ActOp := ActionList; ActBucket := name; ActTime := now |}]).
Proof.
  intros H. unfold validateAuthN. simpl.
  assert (Hv : cr_valid cred = true).
  { unfold allows in H. destruct (cr_valid cred); [reflexivity|discriminate]. }
  rewrite Hv, H. reflexivity.
Qed.

Lemma validateAuthN_delete_inv (cred : Credential) (name : string) (now : Z) ki flags :
  validateAuthN cred (deletePermissions name now) = Ok (ki, flags) ->
  flags = [allows cred {| ActOp := ActionRead; ActBucket := name; ActTime := now |};
           allows cred {| ActOp := ActionList; ActBucket := name; ActTime := now |}].
Proof.
  unfold validateAuthN. intros H. step_hyp H. inversion H. reflexivity.
Qed.

Lemma find_of_existsb {A} (f : A -> bool) (l : list A) :
  existsb f l = true -> exists x, find f l = Some x.
Proof.
  induction l as [|x l IH]; simpl; [discriminate|].
  destruct (f x); simpl; eauto.
Qed.

(** A concurrent writer adds an object to "cakes". *)
Definition add_cake (w : World) : World :=
  set_objects (objects w ++ [obj "cakes" "d" 13]) w.

(** C1 (failing input): "cakes" holds three objects; the caller has
    Delete and List permission and sets deleteAll; the walk removes the
    three objects, then another caller removes the record, so the record
    delete reports NotFound.  The response reports 0 deleted objects. *)
Theorem C1_race_notfound_count :
  fst (deleteBucketObjects 1 "cakes" world0) = Ok 3
  /\ fst (DeleteBucket ep0 drop_cakes 0 (del_req [ActionDelete; ActionList] true) world0)
     = Ok {| DeleteBucketField :=
               match convertBucketToProto {| Buckets.Name := "cakes"; Buckets.CreatedAt := 7 |}
                       rs0 67108864 with Ok c => c | Err _ => None end;
             DeletedObjectsCount := 0 |}.
Proof. split; vm_compute; reflexivity. Qed.

(** C2 (counterexample): same bucket, a concurrent writer adds an object
    after the walk removed three; the caller gets FailedPrecondition and no
    response, so no count. *)
Lemma C2_no_count_for_caller :
  fst (deleteBucketObjects 1 "cakes" world0) = Ok 3
  /\ fst (DeleteBucket ep0 add_cake 0 (del_req [ActionDelete; ActionList] true) world0)
     = Err (Status FailedPrecondition).
Proof. split; vm_compute; reflexivity. Qed.

(** C2 (amended): when the walk completes with [n] deleted objects and the
    record delete then reports the bucket non-empty, [deleteBucketNotEmpty]
    returns FailedPrecondition together with [n], and [DeleteBucket]
    returns that FailedPrecondition error with no response. *)
Theorem C2_race_notempty (endpoint : Endpoint) (interleave : World -> World) (now : Z)
    (req : BucketDeleteRequest.t) (w w1 w2 : World) (b : Buckets.Bucket) (n : Z) :
  let cred := BucketDeleteRequest.Header req in
  let name := BucketDeleteRequest.Name req in
  let proj := cr_project cred in
  allows cred {| ActOp := ActionDelete; ActBucket := name; ActTime := now |} = true ->
  allows cred {| ActOp := ActionList; ActBucket := name; ActTime := now |} = true ->
  BucketDeleteRequest.DeleteAll req = true ->
  validateBucket name = None ->
  GetMinimalBucket name proj w = (Ok b, w) ->
  deleteBucket name proj w = (Err ErrBucketNotEmpty, w) ->
  deleteBucketObjects proj name w = (Ok n, w1) ->
  deleteBucket name proj (interleave w1) = (Err ErrBucketNotEmpty, w2) ->
  deleteBucketNotEmpty interleave proj name w = (Ok (None, n, Some (Status FailedPrecondition)), w2)
  /\ DeleteBucket endpoint interleave now req w = (Err (Status FailedPrecondition), w2).
Proof.
  intros cred name proj Hdel Hlist Hall Hvalid Hget Hfirst Hwalk Hsecond.
  assert (Hnot : deleteBucketNotEmpty interleave proj name w
                 = (Ok (None, n, Some (Status FailedPrecondition)), w2)).
  { unfold deleteBucketNotEmpty. glue. rewrite Hwalk. glue. rewrite Hsecond. reflexivity. }
  split; [exact Hnot|].
  unfold DeleteBucket. glue. fold cred name. rewrite (validateAuthN_delete _ _ _ Hdel).
  rewrite Hlist. fold proj.
  destruct (allows cred {| ActOp := ActionRead; ActBucket := name; ActTime := now |});
    glue; rewrite Hvalid; glue; rewrite Hget; glue; unfold convertBucketToProto;
    destruct (String.length (Buckets.Name b) =? 0)%nat; glue;
    rewrite Hfirst; glue; rewrite Hall; glue; rewrite Hnot; reflexivity.
Qed.

(** C4: a DeleteBucket on an existing, non-empty bucket, by a caller with
    Read or List permission, without deleteAll or without List permission,
    fails with FailedPrecondition and leaves every collaborator as it was. *)
Theorem C4_notempty_no_partial_action (endpoint : Endpoint) (interleave : World -> World)
    (now : Z) (req : BucketDeleteRequest.t) (w : World) :
  let cred := BucketDeleteRequest.Header req in
  let name := BucketDeleteRequest.Name req in
  let proj := cr_project cred in
  allows cred {| ActOp := ActionDelete; ActBucket := name; ActTime := now |} = true ->
  allows cred {| ActOp := ActionRead; ActBucket := name; ActTime := now |}
    || allows cred {| ActOp := ActionList; ActBucket := name; ActTime := now |} = true ->
  negb (BucketDeleteRequest.DeleteAll req)
    || negb (allows cred {| ActOp := ActionList; ActBucket := name; ActTime := now |}) = true ->
  validateBucket name = None ->
  existsb (bucket_at proj name) (catalog w) = true ->
  existsb (in_bucket proj name) (objects w) = true ->
  f_get (faults w) = false -> f_empty (faults w) = false ->
  DeleteBucket endpoint interleave now req w = (Err (Status FailedPrecondition), w).
Proof.
  intros cred name proj Hdel Hrl Hpre Hvalid Hcat Hobj Hget Hempty.
  destruct (find_of_existsb _ _ Hcat) as [e He].
  unfold DeleteBucket. glue. fold cred name. rewrite (validateAuthN_delete _ _ _ Hdel).
  fold proj.
  destruct (allows cred {| ActOp := ActionRead; ActBucket := name; ActTime := now |}) eqn:Hr;
  destruct (allows cred {| ActOp := ActionList; ActBucket := name; ActTime := now |}) eqn:Hl;
    simpl in Hrl, Hpre; try discriminate;
    glue; rewrite Hvalid; glue; unfold GetMinimalBucket at 1; rewrite Hget, He; glue;
    unfold convertBucketToProto;
    destruct (String.length (Buckets.Name (snd e)) =? 0)%nat; glue;
    unfold deleteBucket, isBucketEmpty, BucketEmpty; glue; rewrite Hempty, Hobj; glue;
    destruct (BucketDeleteRequest.DeleteAll req); simpl in Hpre; try discriminate; reflexivity.
Qed.

Lemma C2_race_notempty_witness :
  DeleteBucket ep0 add_cake 0 (del_req [ActionDelete; ActionList] true) world0
  = (Err (Status FailedPrecondition),
     snd (deleteBucket "cakes" 1 (add_cake (snd (deleteBucketObjects 1 "cakes" world0))))).
Proof.
  refine (proj2 (C2_race_notempty ep0 add_cake 0 (del_req [ActionDelete; ActionList] true) world0
           (snd (deleteBucketObjects 1 "cakes" world0))
           (snd (deleteBucket "cakes" 1 (add_cake (snd (deleteBucketObjects 1 "cakes" world0)))))
           {| Buckets.Name := "cakes"; Buckets.CreatedAt := 7 |} 3 _ _ _ _ _ _ _ _));
    vm_compute; reflexivity.
Defined.

Lemma C4_notempty_no_partial_action_witness :
  DeleteBucket ep0 id 0 (del_req [ActionDelete; ActionList] false) world0
  = (Err (Status FailedPrecondition), world0).
Proof.
  refine (C4_notempty_no_partial_action ep0 id 0 (del_req [ActionDelete; ActionList] false) world0
            _ _ _ _ _ _ _ _); vm_compute; reflexivity.
Defined.

(** The same world where the piece-deletion notifier does or does not fail. *)
Definition with_piece_failure (b : bool) (w : World) : World :=
  let f := faults w in
  {| catalog := catalog w; objects := objects w; piece_queue := piece_queue w;
     max_override := max_override w;
     faults := {| f_get := f_get f; f_has := f_has f; f_maxb := f_maxb f;
                  f_count := f_count f; f_create := f_create f; f_attr := f_attr f;
                  f_empty := f_empty f; f_delete := f_delete f; f_walk := f_walk f;
                  f_pieces := b; f_list := f_list f |} |}.

Lemma drain_cb_catalog (fail_at : option nat) (todo : list Object) :
  forall k w r w', drain DeletePieces_cb fail_at k todo w = (r, w') -> catalog w' = catalog w.
Proof.
  induction todo as [|o rest IH]; intros k w r w' H; simpl in H.
  - inversion H; reflexivity.
  - destruct (match fail_at with Some n => Nat.eqb n k | None => false end).
    + inversion H; reflexivity.
    + apply IH in H. rewrite H. unfold DeletePieces_cb, deleteSegmentPieces.
      destruct (f_pieces _); reflexivity.
Qed.

Lemma drain_cb_result (fail_at : option nat) (todo : list Object) :
  forall k w w', fst (drain DeletePieces_cb fail_at k todo w)
                 = fst (drain DeletePieces_cb fail_at k todo w').
Proof.
  induction todo as [|o rest IH]; intros k w w'; simpl; [reflexivity|].
  destruct (match fail_at with Some n => Nat.eqb n k | None => false end);
    [reflexivity|apply IH].
Qed.

(** C6: in a forced deletion the record removal only follows a drain that
    completed: when [deleteBucketObjects] fails, [deleteBucketNotEmpty]
    answers Internal with no record delete, and the catalog is the one it
    started from; the piece-deletion callback always reports success, so
    the drain's outcome is the same whether piece deletion fails or not. *)
Theorem C6_drain_before_remove :
  (forall interleave projectID bucketName w e w1,
     deleteBucketObjects projectID bucketName w = (Err e, w1) ->
     deleteBucketNotEmpty interleave projectID bucketName w
       = (Ok (None, 0, Some (Status Internal)), w1)
     /\ catalog w1 = catalog w)
  /\ (forall deleted w, fst (DeletePieces_cb deleted w) = None)
  /\ (forall projectID bucketName w b,
        fst (deleteBucketObjects projectID bucketName (with_piece_failure b w))
        = fst (deleteBucketObjects projectID bucketName w)).
Proof.
  split; [|split].
  - intros interleave projectID bucketName w e w1 H. split.
    + unfold deleteBucketNotEmpty. glue. rewrite H. reflexivity.
    + unfold deleteBucketObjects, metabase_DeleteBucketObjects in H.
      eapply drain_cb_catalog. exact H.
  - reflexivity.
  - intros projectID bucketName w b.
    unfold deleteBucketObjects, metabase_DeleteBucketObjects. simpl.
    apply drain_cb_result.
Qed.

Lemma C6_drain_before_remove_witness :
  deleteBucketNotEmpty id 1 "cakes"
    (set_objects (objects world0)
       (with_piece_failure false
          {| catalog := catalog world0; objects := objects world0; piece_queue := [];
             max_override := [];
             faults := {| f_get := false; f_has := false; f_maxb := false; f_count := false;
                          f_create := false; f_attr := false; f_empty := false;
                          f_delete := false; f_walk := Some 1%nat; f_pieces := false;
                          f_list := false |} |}))
  = (Ok (None, 0, Some (Status Internal)),
     snd (deleteBucketObjects 1 "cakes"
       (set_objects (objects world0)
          (with_piece_failure false
             {| catalog := catalog world0; objects := objects world0; piece_queue := [];
                max_override := [];
                faults := {| f_get := false; f_has := false; f_maxb := false; f_count := false;
                             f_create := false; f_attr := false; f_empty := false;
                             f_delete := false; f_walk := Some 1%nat; f_pieces := false;
                             f_list := false |} |})))).
Proof.
  refine (proj1 (proj1 C6_drain_before_remove id 1 "cakes" _ (ErrOther "metabase") _ _)).
  vm_compute. reflexivity.
Defined.

(** C7: a caller with neither Read nor List permission never gets bucket
    metadata from DeleteBucket: a response it gets has an empty bucket
    field, and every error comes with no response at all. *)
Theorem C7_delete_hides_bucket (endpoint : Endpoint) (interleave : World -> World) (now : Z)
    (req : BucketDeleteRequest.t) (w : World) :
  let cred := BucketDeleteRequest.Header req in
  let name := BucketDeleteRequest.Name req in
  allows cred {| ActOp := ActionRead; ActBucket := name; ActTime := now |} = false ->
  allows cred {| ActOp := ActionList; ActBucket := name; ActTime := now |} = false ->
  match fst (DeleteBucket endpoint interleave now req w) with
  | Ok resp => DeleteBucketField resp = None
  | Err _ => True
  end.
Proof.
  intros cred name Hr Hl. unfold DeleteBucket. glue. fold cred name.
  destruct (validateAuthN cred (deletePermissions name now)) as [[ki flags]|e] eqn:Ha;
    [|exact I].
  apply validateAuthN_delete_inv in Ha. rewrite Hr, Hl in Ha. subst flags. destruct ki as [p]. glue.
  destruct (validateBucket name); [exact I|]. glue.
  destruct (deleteBucket name p w) as [[u|e] w']; simpl; auto.
Qed.

Lemma C7_delete_hides_bucket_witness :
  match fst (DeleteBucket ep0 id 0 (del_req [ActionDelete] true) world0) with
  | Ok resp => DeleteBucketField resp = None
  | Err _ => True
  end.
Proof.
  refine (C7_delete_hides_bucket ep0 id 0 (del_req [ActionDelete] true) world0 _ _);
    vm_compute; reflexivity.
Defined.

(** C8: for a caller with Delete but neither Read nor List permission and
    a valid name, DeleteBucket answers the same empty success whatever the
    deletion step does: bucket not empty, not found, or a collaborator
    failure. *)
Theorem C8_delete_errors_swallowed (endpoint : Endpoint) (interleave : World -> World)
    (now : Z) (req : BucketDeleteRequest.t) (w : World) :
  let cred := BucketDeleteRequest.Header req in
  let name := BucketDeleteRequest.Name req in
  allows cred {| ActOp := ActionDelete; ActBucket := name; ActTime := now |} = true ->
  allows cred {| ActOp := ActionRead; ActBucket := name; ActTime := now |} = false ->
  allows cred {| ActOp := ActionList; ActBucket := name; ActTime := now |} = false ->
  validateBucket name = None ->
  fst (DeleteBucket endpoint interleave now req w)
  = Ok {| DeleteBucketField := None; DeletedObjectsCount := 0 |}.
Proof.
  intros cred name Hd Hr Hl Hv. unfold DeleteBucket. glue. fold cred name.
  rewrite (validateAuthN_delete _ _ _ Hd), Hr, Hl. glue. rewrite Hv. glue.
  destruct (deleteBucket name (cr_project cred) w) as [[u|e] w']; reflexivity.
Qed.

Lemma C8_delete_errors_swallowed_witness :
  fst (DeleteBucket ep0 id 0 (del_req [ActionDelete] false) world0)
  = Ok {| DeleteBucketField := None; DeletedObjectsCount := 0 |}.
Proof.
  refine (C8_delete_errors_swallowed ep0 id 0 (del_req [ActionDelete] false) world0 _ _ _ _);
    vm_compute; reflexivity.
Defined.

(** The quota of a project as the spec states it: the project's override
    when one is set, the configured default otherwise. *)
Definition MaxBuckets (endpoint : Endpoint) (w : World) (proj : Z) : Z :=
  match find (fun e => fst e =? proj) (max_override w) with
  | Some (_, m) => m
  | None => ProjectLimits_MaxBuckets endpoint
  end.

(** The number of buckets of a project in the catalog. *)
Definition bucket_count (w : World) (proj : Z) : Z :=
  Z.of_nat (List.length (filter (fun e => fst e =? proj) (catalog w))).

(** C5: once authorization, name validation and the uniqueness check pass
    (and the settings and count lookups answer), CreateBucket fails with
    ResourceExhausted exactly when the project's bucket count has reached
    its effective maximum, and then nothing has been inserted. *)
Theorem C5_quota_check (uuid_New : Result Z) (UnmarshalJSON : string -> Z * option GoError)
    (endpoint : Endpoint) (now : Z) (req : BucketCreateRequest.t) (w : World) (ki : KeyInfo) :
  let name := BucketCreateRequest.Name req in
  validateAuth (BucketCreateRequest.Header req)
    {| ActOp := ActionWrite; ActBucket := name; ActTime := now |} = Ok ki ->
  validateBucket name = None ->
  HasBucket name (ProjectID ki) w = (Ok false, w) ->
  f_maxb (faults w) = false -> f_count (faults w) = false ->
  (fst (CreateBucket uuid_New UnmarshalJSON endpoint now req w) = Err (Status ResourceExhausted)
   <-> bucket_count w (ProjectID ki) >= MaxBuckets endpoint w (ProjectID ki))
  /\ (bucket_count w (ProjectID ki) >= MaxBuckets endpoint w (ProjectID ki) ->
      CreateBucket uuid_New UnmarshalJSON endpoint now req w = (Err (Status ResourceExhausted), w)).
Proof.
  intros name Ha Hv Hh Hm Hc. destruct ki as [p]. simpl in *.
  unfold CreateBucket. glue. fold name. rewrite Ha. glue. rewrite Hv. glue. rewrite Hh. glue.
  unfold GetMaxBuckets. rewrite Hm. glue.
  unfold CountBuckets. rewrite Hc. glue.
  unfold MaxBuckets, bucket_count.
  destruct (find (fun e => fst e =? p) (max_override w)) as [[q m]|]; cbn [option_map snd];
  match goal with
  | |- context [if ?m <=? ?c then _ else _] => destruct (m <=? c) eqn:Hle
  end.
  1, 3: apply Z.leb_le in Hle; split; [split; [intros _; lia | reflexivity] | reflexivity].
  all: apply Z.leb_gt in Hle; split; [split; [|lia] | lia].
  all: unfold ensureAttribution;
       repeat (glue; match goal with
                     | |- context [match ?x with _ => _ end] =>
                         lazymatch x with
                         | context [match _ with _ => _ end] => fail
                         | _ => destruct x
                         end
                     end); simpl; intros H; discriminate H.
Qed.

(** A create request for "pies" carrying the client's own preferences. *)
Definition create_req (pid : string) : BucketCreateRequest.t :=
  {| BucketCreateRequest.Header := cred_of [ActionWrite];
     BucketCreateRequest.Name := "pies";
     BucketCreateRequest.PartnerId := pid;
     BucketCreateRequest.PathCipher := ENC_NULL;
     BucketCreateRequest.DefaultSegmentSize := 1024;
     BucketCreateRequest.DefaultRedundancyScheme := Some
       {| Pb.Type_ := 1; Pb.MinReq := 2; Pb.Total := 4; Pb.RepairThreshold := 3;
          Pb.SuccessThreshold := 4; Pb.ErasureShareSize := 64 |};
     BucketCreateRequest.DefaultEncryptionParameters := Some
       {| Pb.CipherSuite_ := ENC_SECRETBOX; Pb.BlockSize := 128 |} |}.

(** Project 1 holds one bucket and may hold one. *)
Definition world_full : World :=
  {| catalog := catalog world0; objects := objects world0; piece_queue := [];
     max_override := [(1, 1)]; faults := no_faults |}.

Lemma C5_quota_check_witness :
  CreateBucket (Ok 42) (fun _ => (0, None)) ep0 0 (create_req "") world_full
  = (Err (Status ResourceExhausted), world_full).
Proof.
  refine (proj2 (C5_quota_check (Ok 42) (fun _ => (0, None)) ep0 0 (create_req "") world_full
                   {| ProjectID := 1 |} _ _ _ _ _) _);
    vm_compute; first [reflexivity | discriminate].
Defined.

(** The answer to the creation of "pies" in [world0]. *)
Definition create_resp0 : BucketCreateResponse :=
  match fst (CreateBucket (Ok 42) (fun _ => (0, None)) ep0 5 (create_req "") world0) with
  | Ok r => r
  | Err _ => {| CreateBucketField := None |}
  end.

(** C3 witness: the bucket created in [world0] is answered with the
    satellite defaults, not with the client's preferences. *)
Lemma C3_wire_bucket_has_defaults_witness :
  exists pb, CreateBucketField create_resp0 = Some pb
             /\ has_defaults ep0 pb /\ Pb.Name pb = "pies".
Proof.
  refine (proj2 (proj2 (C3_wire_bucket_has_defaults ep0)) (Ok 42) (fun _ => (0, None)) 5
            (create_req "") world0 create_resp0
            (snd (CreateBucket (Ok 42) (fun _ => (0, None)) ep0 5 (create_req "") world0)) _).
  vm_compute. reflexivity.
Defined.

Lemma convertProtoToBucket_zero_partner (id : Z) (UnmarshalJSON : string -> Z * option GoError)
    (req : BucketCreateRequest.t) (e : GoError) (projectID : Z) :
  UnmarshalJSON (BucketCreateRequest.PartnerId req) = (0, Some e) ->
  convertProtoToBucket (Ok id) UnmarshalJSON req projectID
  = convertProtoToBucket (Ok id) (fun _ => (0, None)) req projectID.
Proof. intros H. unfold convertProtoToBucket. rewrite H. reflexivity. Qed.

(** C9: with a fresh bucket id drawn, [convertProtoToBucket] returns its
    "Invalid uuid" error exactly when parsing the PartnerId fails and
    leaves a non-zero UUID; when a failed parse leaves the zero UUID the
    request is converted as if the PartnerId were absent, and CreateBucket
    behaves exactly as it does for a well-formed empty PartnerId. *)
Theorem C9_partner_id_error_branch (UnmarshalJSON : string -> Z * option GoError)
    (req : BucketCreateRequest.t) :
  let pid := BucketCreateRequest.PartnerId req in
  (forall id projectID,
     convertProtoToBucket (Ok id) UnmarshalJSON req projectID = Err (ErrOther "Invalid uuid")
     <-> snd (UnmarshalJSON pid) <> None /\ IsZero (fst (UnmarshalJSON pid)) = false)
  /\ (forall id projectID e, UnmarshalJSON pid = (0, Some e) ->
        convertProtoToBucket (Ok id) UnmarshalJSON req projectID
        = Ok {| Storj.ID := id; Storj.Name := BucketCreateRequest.Name req;
                Storj.ProjectID := projectID; Storj.PartnerID := 0; Storj.Created := 0 |})
  /\ (forall uuid_New e endpoint now w, UnmarshalJSON pid = (0, Some e) ->
        CreateBucket uuid_New UnmarshalJSON endpoint now req w
        = CreateBucket uuid_New (fun _ => (0, None)) endpoint now req w).
Proof.
  intros pid. split; [|split].
  - intros id projectID. unfold convertProtoToBucket. fold pid.
    destruct (UnmarshalJSON pid) as [u [err|]]; simpl.
    + destruct (IsZero u); simpl; split.
      * discriminate.
      * intros [_ H]; discriminate H.
      * intros _; split; [discriminate|reflexivity].
      * intros _; reflexivity.
    + split; [discriminate|]. intros [H _]; congruence.
  - intros id projectID e H. unfold convertProtoToBucket. fold pid. rewrite H. reflexivity.
  - intros uuid_New e endpoint now w H.
    assert (Hc : forall projectID,
               convertProtoToBucket uuid_New UnmarshalJSON req projectID
               = convertProtoToBucket uuid_New (fun _ => (0, None)) req projectID).
    { intros projectID. destruct uuid_New as [id|e'].
      - apply (convertProtoToBucket_zero_partner _ _ _ e). exact H.
      - reflexivity. }
    unfold CreateBucket. glue.
    repeat (first [ rewrite Hc
                  | match goal with
                    | |- context [match ?x with _ => _ end] =>
                        lazymatch x with
                        | context [match _ with _ => _ end] => fail
                        | _ => destruct x
                        end
                    end ]; glue); reflexivity.
Qed.

(** A parser that gives up on anything and leaves the zero UUID. *)
Definition reject_all (b : string) : Z * option GoError := (0, Some (ErrOther "bad uuid")).

Lemma C9_partner_id_error_branch_witness :
  CreateBucket (Ok 42) reject_all ep0 5 (create_req "not-a-uuid") world0
  = CreateBucket (Ok 42) (fun _ => (0, None)) ep0 5 (create_req "not-a-uuid") world0.
Proof.
  refine (proj2 (proj2 (C9_partner_id_error_branch reject_all (create_req "not-a-uuid")))
            (Ok 42) (ErrOther "bad uuid") ep0 5 world0 _).
  reflexivity.
Defined.

(** C10: ListBuckets checks the Read action, not List: a key allowing Read
    is never refused by authorization when listing, and a key allowing
    List but not Read is refused with PermissionDenied. *)
Theorem C10_list_checks_read (endpoint : Endpoint) (now : Z) (req : BucketListRequest.t)
    (w : World) :
  let cred := BucketListRequest.Header req in
  (allows cred {| ActOp := ActionRead; ActBucket := EmptyString; ActTime := now |} = true ->
   forall c, fst (ListBuckets endpoint now req w) <> Err (Status c))
  /\ (allows cred {| ActOp := ActionRead; ActBucket := EmptyString; ActTime := now |} = false ->
      allows cred {| ActOp := ActionList; ActBucket := EmptyString; ActTime := now |} = true ->
      fst (ListBuckets endpoint now req w) = Err (Status PermissionDenied)).
Proof.
  intros cred. split.
  - intros Hr c. unfold ListBuckets. glue. fold cred. unfold validateAuth.
    assert (Hv : cr_valid cred = true).
    { unfold allows in Hr. destruct (cr_valid cred); [reflexivity|discriminate]. }
    rewrite Hv, Hr. glue. unfold buckets_ListBuckets.
    destruct (f_list (faults w)); simpl; discriminate.
  - intros Hr Hl. unfold ListBuckets. glue. fold cred. unfold validateAuth.
    assert (Hv : cr_valid cred = true).
    { unfold allows in Hl. destruct (cr_valid cred); [reflexivity|discriminate]. }
    rewrite Hv, Hr. reflexivity.
Qed.

Definition list_req (ops : list Op) : BucketListRequest.t :=
  {| BucketListRequest.Header := cred_of ops; BucketListRequest.Cursor := "";
     BucketListRequest.Limit := 10; BucketListRequest.Direction := 1 |}.

Lemma C10_list_checks_read_witness :
  fst (ListBuckets ep0 0 (list_req [ActionList]) world0) = Err (Status PermissionDenied)
  /\ fst (ListBuckets ep0 0 (list_req [ActionRead]) world0) <> Err (Status PermissionDenied).
Proof.
  split.
  - refine (proj2 (C10_list_checks_read ep0 0 (list_req [ActionList]) world0) _ _);
      vm_compute; reflexivity.
  - refine (proj1 (C10_list_checks_read ep0 0 (list_req [ActionRead]) world0) _ PermissionDenied);
      vm_compute; reflexivity.
Defined.

(** * Further properties of the endpoint *)

Lemma convertProtoToBucket_project uuid_New UnmarshalJSON req projectID b :
  convertProtoToBucket uuid_New UnmarshalJSON req projectID = Ok b ->
  Storj.ProjectID b = projectID.
Proof.
  unfold convertProtoToBucket. intros H. step_hyp H. inversion H. reflexivity.
Qed.

Lemma find_app_none {A} (f : A -> bool) (l1 l2 : list A) :
  existsb f l1 = false -> find f (l1 ++ l2) = find f l2.
Proof.
  induction l1 as [|x l1 IH]; simpl; [reflexivity|].
  destruct (f x); simpl; [discriminate|exact IH].
Qed.

Lemma find_none_of_existsb {A} (f : A -> bool) (l : list A) :
  existsb f l = false -> find f l = None.
Proof.
  intros H. rewrite <- (app_nil_r l). rewrite (find_app_none _ _ _ H). reflexivity.
Qed.

Lemma filter_negb_none {A} (f : A -> bool) (l : list A) :
  existsb f l = false -> filter (fun e => negb (f e)) l = l.
Proof.
  induction l as [|x l IH]; simpl; [reflexivity|].
  destruct (f x); simpl; [discriminate|]. intros H. f_equal. exact (IH H).
Qed.

Lemma bucket_at_self (proj : Z) (b : Buckets.Bucket) :
  bucket_at proj (Buckets.Name b) (proj, b) = true.
Proof. unfold bucket_at. simpl. rewrite Z.eqb_refl, String.eqb_refl. reflexivity. Qed.

Lemma validateAuth_ok (cred : Credential) (act : Action) (ki : KeyInfo) :
  validateAuth cred act = Ok ki -> ki = {| ProjectID := cr_project cred |}.
Proof. unfold validateAuth. intros H. step_hyp H. inversion H. reflexivity. Qed.

(** What a successful CreateBucket did: the name was valid and free in the
    key's project, one record stamped [now] was appended to the catalog and
    nothing else changed; the answer is the new bucket with the defaults. *)
Lemma CreateBucket_ok_inv uuid_New UnmarshalJSON (endpoint : Endpoint) (now : Z)
    (req : BucketCreateRequest.t) (w w' : World) (r : BucketCreateResponse) :
  CreateBucket uuid_New UnmarshalJSON endpoint now req w = (Ok r, w') ->
  let name := BucketCreateRequest.Name req in
  let proj := cr_project (BucketCreateRequest.Header req) in
  validateBucket name = None
  /\ existsb (bucket_at proj name) (catalog w) = false
  /\ w' = set_catalog (catalog w ++ [(proj, {| Buckets.Name := name; Buckets.CreatedAt := now |})]) w
  /\ exists pb, CreateBucketField r = Some pb /\ Pb.Name pb = name /\ Pb.CreatedAt pb = now
       /\ has_defaults endpoint pb.
Proof.
  intros H name proj. subst name proj.
  unfold CreateBucket, HasBucket, GetMaxBuckets, CountBuckets, buckets_CreateBucket,
    ensureAttribution, validateAuth in H.
  crunch H;
  inversion H; subst;
  pose proof (convertProtoToBucket_name _ _ _ _ _ E8) as Hn;
  pose proof (convertProtoToBucket_project _ _ _ _ _ E8) as Hp;
  simpl in E12; rewrite Hn, Hp in *;
  (split; [first [reflexivity|assumption]|split; [first [reflexivity|assumption]|split; [reflexivity|]]]);
  destruct (convert_nonempty endpoint
              {| Buckets.Name := BucketCreateRequest.Name req; Buckets.CreatedAt := now |})
    as (pb & Hc & Hpn & Hpc & Hd);
  try (simpl; apply validateBucket_nonempty; assumption);
  simpl in Hc; rewrite Hc in E12; inversion E12; subst;
  exists pb; simpl; auto.
Qed.

(** CreateBucket with an invalid bucket name fails with InvalidArgument
    before any collaborator is consulted. *)
Theorem CreateBucket_invalid_name uuid_New UnmarshalJSON (endpoint : Endpoint) (now : Z)
    (req : BucketCreateRequest.t) (w : World) (ki : KeyInfo) (e : GoError) :
  validateAuth (BucketCreateRequest.Header req)
    {| ActOp := ActionWrite; ActBucket := BucketCreateRequest.Name req; ActTime := now |} = Ok ki ->
  validateBucket (BucketCreateRequest.Name req) = Some e ->
  CreateBucket uuid_New UnmarshalJSON endpoint now req w = (Err (Status InvalidArgument), w).
Proof.
  intros Ha Hv. unfold CreateBucket. glue. rewrite Ha. glue. rewrite Hv. reflexivity.
Qed.

Lemma CreateBucket_invalid_name_witness :
  CreateBucket (Ok 42) (fun _ => (0, None)) ep0 5
    {| BucketCreateRequest.Header := cred_of [ActionWrite];
       BucketCreateRequest.Name := "Pies!";
       BucketCreateRequest.PartnerId := "";
       BucketCreateRequest.PathCipher := ENC_NULL;
       BucketCreateRequest.DefaultSegmentSize := 0;
       BucketCreateRequest.DefaultRedundancyScheme := None;
       BucketCreateRequest.DefaultEncryptionParameters := None |} world0
  = (Err (Status InvalidArgument), world0).
Proof.
  refine (CreateBucket_invalid_name _ _ ep0 5 _ world0 {| ProjectID := 1 |}
            (ErrOther "invalid bucket name") _ _); vm_compute; reflexivity.
Defined.

(** CreateBucket on a name the key's project already holds answers
    AlreadyExists (Internal when the attribution update fails) and leaves
    the catalog as it was. *)
Theorem CreateBucket_existing uuid_New UnmarshalJSON (endpoint : Endpoint) (now : Z)
    (req : BucketCreateRequest.t) (w : World) :
  let name := BucketCreateRequest.Name req in
  let cred := BucketCreateRequest.Header req in
  allows cred {| ActOp := ActionWrite; ActBucket := name; ActTime := now |} = true ->
  validateBucket name = None ->
  f_has (faults w) = false ->
  existsb (bucket_at (cr_project cred) name) (catalog w) = true ->
  CreateBucket uuid_New UnmarshalJSON endpoint now req w
  = (Err (Status (if f_attr (faults w) then Internal else AlreadyExists)), w).
Proof.
  intros name cred Ha Hv Hh He.
  assert (Hc : cr_valid cred = true).
  { unfold allows in Ha. destruct (cr_valid cred); [reflexivity|discriminate]. }
  unfold CreateBucket, validateAuth. glue. fold name cred. rewrite Hc, Ha. glue.
  rewrite Hv. glue. unfold HasBucket. rewrite Hh, He. glue.
  unfold ensureAttribution. destruct (f_attr (faults w)); reflexivity.
Qed.

Lemma CreateBucket_existing_witness :
  CreateBucket (Ok 42) (fun _ => (0, None)) ep0 5
    {| BucketCreateRequest.Header := cred_of [ActionWrite];
       BucketCreateRequest.Name := "cakes";
       BucketCreateRequest.PartnerId := "";
       BucketCreateRequest.PathCipher := ENC_NULL;
       BucketCreateRequest.DefaultSegmentSize := 0;
       BucketCreateRequest.DefaultRedundancyScheme := None;
       BucketCreateRequest.DefaultEncryptionParameters := None |} world0
  = (Err (Status AlreadyExists), world0).
Proof.
  refine (CreateBucket_existing _ _ ep0 5 _ world0 _ _ _ _); vm_compute; reflexivity.
Defined.

(** A successful CreateBucket appends exactly one record, named as
    requested and stamped with the creation time, to a project that did not
    hold the name; the project's bucket count grows by one. *)
Theorem CreateBucket_inserts uuid_New UnmarshalJSON (endpoint : Endpoint) (now : Z)
    (req : BucketCreateRequest.t) (w w' : World) (r : BucketCreateResponse) :
  CreateBucket uuid_New UnmarshalJSON endpoint now req w = (Ok r, w') ->
  let name := BucketCreateRequest.Name req in
  let proj := cr_project (BucketCreateRequest.Header req) in
  existsb (bucket_at proj name) (catalog w) = false
  /\ catalog w' = catalog w ++ [(proj, {| Buckets.Name := name; Buckets.CreatedAt := now |})]
  /\ objects w' = objects w
  /\ bucket_count w' proj = bucket_count w proj + 1.
Proof.
  intros H name proj.
  destruct (CreateBucket_ok_inv _ _ _ _ _ _ _ _ H) as (_ & Hfree & Hw & _).
  subst w'. fold name proj in Hfree. split; [exact Hfree|split; [reflexivity|split; [reflexivity|]]].
  unfold bucket_count. simpl. rewrite filter_app. simpl. rewrite Z.eqb_refl.
  rewrite List.length_app. simpl. lia.
Qed.

Lemma CreateBucket_inserts_witness :
  catalog (snd (CreateBucket (Ok 42) (fun _ => (0, None)) ep0 5 (create_req "") world0))
  = catalog world0 ++ [(1, {| Buckets.Name := "pies"; Buckets.CreatedAt := 5 |})].
Proof.
  refine (proj1 (proj2 (CreateBucket_inserts (Ok 42) (fun _ => (0, None)) ep0 5 (create_req "")
            world0 _ create_resp0 _))).
  vm_compute. reflexivity.
Defined.

(** After a successful CreateBucket, a GetBucket of that name in the same
    project, by a key allowed to read it, finds the new bucket: same name,
    the creation time, and the satellite defaults. *)
Theorem Create_then_Get uuid_New UnmarshalJSON (endpoint : Endpoint) (now now' : Z)
    (creq : BucketCreateRequest.t) (greq : BucketGetRequest.t) (w w' : World)
    (r : BucketCreateResponse) :
  CreateBucket uuid_New UnmarshalJSON endpoint now creq w = (Ok r, w') ->
  BucketGetRequest.Name greq = BucketCreateRequest.Name creq ->
  cr_project (BucketGetRequest.Header greq) = cr_project (BucketCreateRequest.Header creq) ->
  allows (BucketGetRequest.Header greq)
    {| ActOp := ActionRead; ActBucket := BucketGetRequest.Name greq; ActTime := now' |} = true ->
  f_get (faults w) = false ->
  exists pb, GetBucket endpoint now' greq w' = (Ok {| GetBucketField := Some pb |}, w')
    /\ Pb.Name pb = BucketCreateRequest.Name creq /\ Pb.CreatedAt pb = now
    /\ has_defaults endpoint pb.
Proof.
  intros H Hn Hp Ha Hg.
  destruct (CreateBucket_ok_inv _ _ _ _ _ _ _ _ H) as (Hv & Hfree & Hw & _).
  subst w'.
  assert (Hc : cr_valid (BucketGetRequest.Header greq) = true).
  { unfold allows in Ha. destruct (cr_valid _); [reflexivity|discriminate]. }
  destruct (convert_nonempty endpoint
              {| Buckets.Name := BucketCreateRequest.Name creq; Buckets.CreatedAt := now |})
    as (pb & Hcv & Hpn & Hpc & Hd).
  { simpl. apply validateBucket_nonempty. exact Hv. }
  exists pb. split; [|simpl in *; auto].
  unfold GetBucket, validateAuth. glue. rewrite Hc, Ha. glue.
  unfold GetMinimalBucket. simpl. rewrite Hg, Hn, Hp.
  rewrite (find_app_none _ _ _ Hfree). simpl.
  unfold bucket_at. simpl. rewrite Z.eqb_refl, String.eqb_refl. simpl. glue.
  simpl in Hcv. rewrite Hcv. reflexivity.
Qed.

Definition get_req (name : string) : BucketGetRequest.t :=
  {| BucketGetRequest.Header := cred_of [ActionRead]; BucketGetRequest.Name := name |}.

Lemma Create_then_Get_witness :
  exists pb, GetBucket ep0 9 (get_req "pies")
               (snd (CreateBucket (Ok 42) (fun _ => (0, None)) ep0 5 (create_req "") world0))
             = (Ok {| GetBucketField := Some pb |},
                snd (CreateBucket (Ok 42) (fun _ => (0, None)) ep0 5 (create_req "") world0))
    /\ Pb.Name pb = "pies" /\ Pb.CreatedAt pb = 5 /\ has_defaults ep0 pb.
Proof.
  refine (Create_then_Get (Ok 42) (fun _ => (0, None)) ep0 5 9 (create_req "") (get_req "pies")
            world0 _ create_resp0 _ _ _ _ _); vm_compute; reflexivity.
Defined.

(** Case analysis on the innermost [match]es of the goal, the monadic glue
    evaluated in between. *)
Ltac crunch_goal :=
  repeat (glue;
          match goal with
          | |- context [match ?x with _ => _ end] =>
              lazymatch x with
              | context [match _ with _ => _ end] => fail
              | _ => let E := fresh "E" in destruct x eqn:E
              end
          end).

(** GetBucket of a name the key's project does not hold answers NotFound,
    and a failing bucket database answers Internal; the state is left as
    it was. *)
Theorem GetBucket_missing (endpoint : Endpoint) (now : Z) (req : BucketGetRequest.t) (w : World) :
  let cred := BucketGetRequest.Header req in
  let name := BucketGetRequest.Name req in
  allows cred {| ActOp := ActionRead; ActBucket := name; ActTime := now |} = true ->
  existsb (bucket_at (cr_project cred) name) (catalog w) = false \/ f_get (faults w) = true ->
  GetBucket endpoint now req w
  = (Err (Status (if f_get (faults w) then Internal else NotFound)), w).
Proof.
  intros cred name Ha Hm.
  assert (Hc : cr_valid cred = true).
  { unfold allows in Ha. destruct (cr_valid cred); [reflexivity|discriminate]. }
  unfold GetBucket, validateAuth. glue. fold cred name. rewrite Hc, Ha. glue.
  unfold GetMinimalBucket. destruct (f_get (faults w)) eqn:Hg; [reflexivity|].
  destruct Hm as [Hm|Hm]; [|discriminate].
  rewrite (find_none_of_existsb _ _ Hm). reflexivity.
Qed.

Lemma GetBucket_missing_witness :
  GetBucket ep0 0 (get_req "pies") world0 = (Err (Status NotFound), world0).
Proof.
  refine (GetBucket_missing ep0 0 (get_req "pies") world0 _ (or_introl _));
    vm_compute; reflexivity.
Defined.

(** GetBucket and ListBuckets only read: whatever they answer, the bucket
    database, the metabase and the piece queue are left as they were. *)
Theorem Get_List_read_only (endpoint : Endpoint) (now : Z) (greq : BucketGetRequest.t)
    (lreq : BucketListRequest.t) (w : World) :
  snd (GetBucket endpoint now greq w) = w /\ snd (ListBuckets endpoint now lreq w) = w.
Proof.
  split.
  - unfold GetBucket, GetMinimalBucket. crunch_goal; reflexivity.
  - unfold ListBuckets, buckets_ListBuckets. crunch_goal; reflexivity.
Qed.

Lemma bucket_at_name (proj : Z) (name : string) (e : Z * Buckets.Bucket) :
  bucket_at proj name e = true -> Buckets.Name (snd e) = name.
Proof.
  unfold bucket_at. intros H. apply andb_true_iff in H as [_ H].
  apply String.eqb_eq. exact H.
Qed.

Lemma filter_none {A} (f : A -> bool) (l : list A) :
  existsb f l = false -> filter f l = [].
Proof.
  induction l as [|x l IH]; simpl; [reflexivity|].
  destruct (f x); simpl; [discriminate|exact IH].
Qed.

Lemma existsb_filter_negb {A} (f : A -> bool) (l : list A) :
  existsb f (filter (fun e => negb (f e)) l) = false.
Proof.
  induction l as [|x l IH]; simpl; [reflexivity|].
  destruct (f x) eqn:Ex; simpl; [exact IH|]. rewrite Ex. exact IH.
Qed.

(** The run of DeleteBucket on an existing bucket holding no object: the
    record is removed, the metabase untouched, and the answer carries a
    count of zero and, for a key allowed to read or list, the bucket. *)
Lemma DeleteBucket_empty_run (endpoint : Endpoint) (interleave : World -> World) (now : Z)
    (req : BucketDeleteRequest.t) (w : World) :
  let cred := BucketDeleteRequest.Header req in
  let name := BucketDeleteRequest.Name req in
  allows cred {| ActOp := ActionDelete; ActBucket := name; ActTime := now |} = true ->
  validateBucket name = None ->
  f_get (faults w) = false -> f_empty (faults w) = false -> f_delete (faults w) = false ->
  existsb (bucket_at (cr_project cred) name) (catalog w) = true ->
  existsb (in_bucket (cr_project cred) name) (objects w) = false ->
  exists conv,
    DeleteBucket endpoint interleave now req w
    = (Ok {| DeleteBucketField := conv; DeletedObjectsCount := 0 |},
       set_catalog (filter (fun e => negb (bucket_at (cr_project cred) name e)) (catalog w)) w)
    /\ (allows cred {| ActOp := ActionRead; ActBucket := name; ActTime := now |}
        || allows cred {| ActOp := ActionList; ActBucket := name; ActTime := now |} = false ->
        conv = None)
    /\ (allows cred {| ActOp := ActionRead; ActBucket := name; ActTime := now |}
        || allows cred {| ActOp := ActionList; ActBucket := name; ActTime := now |} = true ->
        exists pb, conv = Some pb /\ Pb.Name pb = name /\ has_defaults endpoint pb).
Proof.
  intros cred name Hd Hv Hg He Hx Hb Ho.
  unfold DeleteBucket. glue. fold cred name.
  rewrite (validateAuthN_delete _ _ _ Hd).
  destruct (find_of_existsb _ _ Hb) as [e Hf].
  pose proof (bucket_at_name _ _ _ (proj2 (find_some _ _ Hf))) as Hn.
  destruct (convert_nonempty endpoint (snd e)) as (pb & Hcv & Hpn & _ & Hdef).
  { rewrite Hn. apply validateBucket_nonempty. exact Hv. }
  destruct (allows cred {| ActOp := ActionRead; ActBucket := name; ActTime := now |}) eqn:Er,
           (allows cred {| ActOp := ActionList; ActBucket := name; ActTime := now |}) eqn:El;
  glue; rewrite Hv; glue;
  unfold GetMinimalBucket, deleteBucket, isBucketEmpty, BucketEmpty, buckets_DeleteBucket;
  rewrite ?Hg, ?Hf; glue; rewrite ?Hcv; glue; rewrite He, Ho, Hx, Hb; glue;
  first [ exists (Some pb); split; [reflexivity|];
          split; [intros H; simpl in H; discriminate H
                 |intros _; exists pb; split; [reflexivity|split; [congruence|exact Hdef]]]
        | exists None; split; [reflexivity|];
          split; [reflexivity|intros H; simpl in H; discriminate H] ].
Qed.

(** DeleteBucket on an existing bucket holding no object removes its record
    and nothing else, touches neither the metabase nor the piece queue, and
    answers a count of zero; the bucket comes back only to a key allowed to
    read or list it. *)
Theorem DeleteBucket_empty (endpoint : Endpoint) (interleave : World -> World) (now : Z)
    (req : BucketDeleteRequest.t) (w : World) :
  let cred := BucketDeleteRequest.Header req in
  let name := BucketDeleteRequest.Name req in
  allows cred {| ActOp := ActionDelete; ActBucket := name; ActTime := now |} = true ->
  validateBucket name = None ->
  f_get (faults w) = false -> f_empty (faults w) = false -> f_delete (faults w) = false ->
  existsb (bucket_at (cr_project cred) name) (catalog w) = true ->
  existsb (in_bucket (cr_project cred) name) (objects w) = false ->
  exists resp w',
    DeleteBucket endpoint interleave now req w = (Ok resp, w')
    /\ DeletedObjectsCount resp = 0
    /\ catalog w' = filter (fun e => negb (bucket_at (cr_project cred) name e)) (catalog w)
    /\ existsb (bucket_at (cr_project cred) name) (catalog w') = false
    /\ objects w' = objects w /\ piece_queue w' = piece_queue w
    /\ (DeleteBucketField resp = None
        <-> allows cred {| ActOp := ActionRead; ActBucket := name; ActTime := now |}
            || allows cred {| ActOp := ActionList; ActBucket := name; ActTime := now |} = false).
Proof.
  intros cred name Hd Hv Hg He Hx Hb Ho.
  destruct (DeleteBucket_empty_run endpoint interleave now req w Hd Hv Hg He Hx Hb Ho)
    as (conv & Hrun & Hnone & Hsome).
  fold cred name in Hrun, Hnone, Hsome.
  eexists; eexists; split; [exact Hrun|].
  simpl. split; [reflexivity|split; [reflexivity|split; [|split; [reflexivity|split; [reflexivity|]]]]].
  - apply existsb_filter_negb.
  - destruct (allows cred {| ActOp := ActionRead; ActBucket := name; ActTime := now |}
              || allows cred {| ActOp := ActionList; ActBucket := name; ActTime := now |}).
    + destruct (Hsome eq_refl) as (pb & -> & _). split; discriminate.
    + split; [reflexivity|intros _; exact (Hnone eq_refl)].
Qed.

Definition empty_world : World :=
  {| catalog := catalog world0; objects := []; piece_queue := []; max_override := [];
     faults := no_faults |}.

Lemma DeleteBucket_empty_witness :
  exists resp w',
    DeleteBucket ep0 id 0 (del_req [ActionDelete; ActionRead] false) empty_world = (Ok resp, w')
    /\ DeletedObjectsCount resp = 0
    /\ catalog w' = []
    /\ existsb (bucket_at 1 "cakes") (catalog w') = false
    /\ objects w' = [] /\ piece_queue w' = []
    /\ (DeleteBucketField resp = None <-> true || false = false).
Proof.
  refine (DeleteBucket_empty ep0 id 0 (del_req [ActionDelete; ActionRead] false) empty_world
            _ _ _ _ _ _ _); vm_compute; reflexivity.
Defined.

(** A bucket created and deleted again, with no object put in between,
    leaves the state exactly as it was before the creation. *)
Theorem Create_then_Delete uuid_New UnmarshalJSON (endpoint : Endpoint)
    (interleave : World -> World) (now now' : Z)
    (creq : BucketCreateRequest.t) (dreq : BucketDeleteRequest.t) (w w1 : World)
    (r : BucketCreateResponse) :
  CreateBucket uuid_New UnmarshalJSON endpoint now creq w = (Ok r, w1) ->
  BucketDeleteRequest.Name dreq = BucketCreateRequest.Name creq ->
  cr_project (BucketDeleteRequest.Header dreq) = cr_project (BucketCreateRequest.Header creq) ->
  allows (BucketDeleteRequest.Header dreq)
    {| ActOp := ActionDelete; ActBucket := BucketDeleteRequest.Name dreq; ActTime := now' |} = true ->
  f_get (faults w) = false -> f_empty (faults w) = false -> f_delete (faults w) = false ->
  existsb (in_bucket (cr_project (BucketCreateRequest.Header creq)) (BucketCreateRequest.Name creq))
    (objects w) = false ->
  exists resp, DeleteBucket endpoint interleave now' dreq w1 = (Ok resp, w).
Proof.
  intros H Hn Hp Hd Hg He Hx Ho.
  destruct (CreateBucket_ok_inv _ _ _ _ _ _ _ _ H) as (Hv & Hfree & Hw & _).
  subst w1.
  rewrite <- Hn in Hv, Hfree, Ho |- *. rewrite <- Hp in Hfree, Ho |- *.
  destruct (DeleteBucket_empty_run endpoint interleave now' dreq
              (set_catalog (catalog w ++ [(cr_project (BucketDeleteRequest.Header dreq),
                 {| Buckets.Name := BucketDeleteRequest.Name dreq; Buckets.CreatedAt := now |})]) w)
              Hd Hv Hg He Hx) as (conv & Hrun & _).
  - simpl. rewrite existsb_app. simpl. unfold bucket_at at 2. simpl.
    rewrite Z.eqb_refl, String.eqb_refl. apply orb_true_r.
  - exact Ho.
  - exists {| DeleteBucketField := conv; DeletedObjectsCount := 0 |}. rewrite Hrun.
    f_equal. simpl. rewrite filter_app, (filter_negb_none _ _ Hfree). simpl.
    unfold bucket_at at 1. simpl. rewrite Z.eqb_refl, String.eqb_refl. simpl.
    rewrite app_nil_r. destruct w; reflexivity.
Qed.

(** A delete request for "pies" in project 1. *)
Definition del_pies : BucketDeleteRequest.t :=
  {| BucketDeleteRequest.Header := cred_of [ActionDelete]; BucketDeleteRequest.Name := "pies";
     BucketDeleteRequest.DeleteAll := false |}.

Lemma Create_then_Delete_witness :
  exists resp, DeleteBucket ep0 id 9 del_pies
                 (snd (CreateBucket (Ok 42) (fun _ => (0, None)) ep0 5 (create_req "") world0))
               = (Ok resp, world0).
Proof.
  refine (Create_then_Delete (Ok 42) (fun _ => (0, None)) ep0 id 5 9 (create_req "") del_pies
            world0 _ create_resp0 _ _ _ _ _ _ _ _); vm_compute; reflexivity.
Defined.

(** [deleteBucket] never removes the record of a bucket that still holds an
    object: it answers ErrBucketNotEmpty (or the metabase's error) and
    changes nothing. *)
Theorem deleteBucket_keeps_nonempty (name : string) (proj : Z) (w : World) :
  existsb (in_bucket proj name) (objects w) = true ->
  deleteBucket name proj w
  = (Err (if f_empty (faults w) then ErrOther "metabase" else ErrBucketNotEmpty), w).
Proof.
  intros Ho. unfold deleteBucket, isBucketEmpty, BucketEmpty. glue.
  destruct (f_empty (faults w)); [reflexivity|]. rewrite Ho. reflexivity.
Qed.

Lemma deleteBucket_keeps_nonempty_witness :
  deleteBucket "cakes" 1 world0 = (Err ErrBucketNotEmpty, world0).
Proof.
  refine (deleteBucket_keeps_nonempty "cakes" 1 world0 _); vm_compute; reflexivity.
Defined.

(** DeleteBucket of a name the key's project does not hold, by a key
    allowed to read or list it, answers NotFound and changes nothing. *)
Theorem DeleteBucket_missing (endpoint : Endpoint) (interleave : World -> World) (now : Z)
    (req : BucketDeleteRequest.t) (w : World) :
  let cred := BucketDeleteRequest.Header req in
  let name := BucketDeleteRequest.Name req in
  allows cred {| ActOp := ActionDelete; ActBucket := name; ActTime := now |} = true ->
  allows cred {| ActOp := ActionRead; ActBucket := name; ActTime := now |}
  || allows cred {| ActOp := ActionList; ActBucket := name; ActTime := now |} = true ->
  validateBucket name = None ->
  f_get (faults w) = false ->
  existsb (bucket_at (cr_project cred) name) (catalog w) = false ->
  DeleteBucket endpoint interleave now req w = (Err (Status NotFound), w).
Proof.
  intros cred name Hd Hrl Hv Hg Hb.
  unfold DeleteBucket. glue. fold cred name.
  rewrite (validateAuthN_delete _ _ _ Hd).
  destruct (allows cred {| ActOp := ActionRead; ActBucket := name; ActTime := now |}),
           (allows cred {| ActOp := ActionList; ActBucket := name; ActTime := now |});
    try discriminate Hrl;
  glue; rewrite Hv; glue; unfold GetMinimalBucket; rewrite Hg, (find_none_of_existsb _ _ Hb);
  reflexivity.
Qed.

Lemma DeleteBucket_missing_witness :
  DeleteBucket ep0 id 0
    {| BucketDeleteRequest.Header := cred_of [ActionDelete; ActionList];
       BucketDeleteRequest.Name := "pies"; BucketDeleteRequest.DeleteAll := true |} world0
  = (Err (Status NotFound), world0).
Proof.
  refine (DeleteBucket_missing ep0 id 0 _ world0 _ _ _ _ _); vm_compute; reflexivity.
Defined.

(** DeleteBucket of an invalid bucket name, by an authorized key, answers
    InvalidArgument before any collaborator is consulted. *)
Theorem DeleteBucket_invalid_name (endpoint : Endpoint) (interleave : World -> World) (now : Z)
    (req : BucketDeleteRequest.t) (w : World) (e : GoError) :
  allows (BucketDeleteRequest.Header req)
    {| ActOp := ActionDelete; ActBucket := BucketDeleteRequest.Name req; ActTime := now |} = true ->
  validateBucket (BucketDeleteRequest.Name req) = Some e ->
  DeleteBucket endpoint interleave now req w = (Err (Status InvalidArgument), w).
Proof.
  intros Hd Hv. unfold DeleteBucket. glue.
  rewrite (validateAuthN_delete _ _ _ Hd). glue. rewrite Hv. reflexivity.
Qed.

Lemma DeleteBucket_invalid_name_witness :
  DeleteBucket ep0 id 0
    {| BucketDeleteRequest.Header := cred_of [ActionDelete];
       BucketDeleteRequest.Name := "ab"; BucketDeleteRequest.DeleteAll := false |} world0
  = (Err (Status InvalidArgument), world0).
Proof.
  refine (DeleteBucket_invalid_name ep0 id 0 _ world0 (ErrOther "invalid bucket name") _ _);
    vm_compute; reflexivity.
Defined.

Lemma filter_compose {A} (f g : A -> bool) (l : list A) :
  filter f (filter g l) = filter (fun x => g x && f x) l.
Proof.
  induction l as [|x l IH]; simpl; [reflexivity|].
  destruct (g x); simpl; [destruct (f x); simpl; rewrite IH; reflexivity|exact IH].
Qed.

Lemma filter_true_all {A} (l : list A) : filter (fun _ => true) l = l.
Proof. induction l as [|x l IH]; simpl; [reflexivity|rewrite IH; reflexivity]. Qed.

Lemma same_object_refl (o : Object) : same_object o o = true.
Proof. unfold same_object. rewrite Z.eqb_refl, !String.eqb_refl. reflexivity. Qed.

Lemma same_object_in_bucket (proj : Z) (name : string) (o o' : Object) :
  same_object o o' = true -> in_bucket proj name o = in_bucket proj name o'.
Proof.
  unfold same_object, in_bucket. intros H.
  apply andb_true_iff in H as [H _]. apply andb_true_iff in H as [Hp Hb].
  apply Z.eqb_eq in Hp. apply String.eqb_eq in Hb. rewrite Hp, Hb. reflexivity.
Qed.

(** A walk that the metabase lets finish, with the endpoint's callback:
    every object of [todo] is deleted, each one's pieces are queued in
    order (unless the notifier loses them), and the count is [length todo]. *)
Lemma drain_cb_all (todo : list Object) :
  forall k w,
  drain DeletePieces_cb None k todo w =
  (Ok (Z.of_nat (k + List.length todo)),
   {| catalog := catalog w;
      objects := filter (fun o' => forallb (fun o => negb (same_object o o')) todo) (objects w);
      piece_queue := if f_pieces (faults w) then piece_queue w
                     else piece_queue w ++ List.concat (map ob_pieces todo);
      max_override := max_override w; faults := faults w |}).
Proof.
  induction todo as [|o rest IH]; intros k w; simpl.
  - rewrite Nat.add_0_r, filter_true_all, app_nil_r.
    destruct w as [c os q m f]; simpl. destruct (f_pieces f); reflexivity.
  - unfold DeletePieces_cb, deleteSegmentPieces. simpl.
    destruct (f_pieces (faults w)) eqn:Hp; rewrite IH; simpl; rewrite ?Hp, filter_compose;
      rewrite <- ?app_assoc, Nat.add_succ_r; reflexivity.
Qed.

(** Deleting every object that lies in the bucket leaves exactly the
    objects outside it. *)
Lemma filter_forallb_in_bucket (proj : Z) (name : string) (l : list Object) :
  filter (fun o' => forallb (fun o => negb (same_object o o')) (filter (in_bucket proj name) l)) l
  = filter (fun o => negb (in_bucket proj name o)) l.
Proof.
  apply filter_ext_in. intros o' Hin.
  destruct (in_bucket proj name o') eqn:Ei; simpl.
  - apply Bool.not_true_iff_false. intros F. rewrite forallb_forall in F.
    specialize (F o' (proj2 (filter_In _ _ _) (conj Hin Ei))).
    rewrite same_object_refl in F. discriminate F.
  - apply forallb_forall. intros o Ho. apply filter_In in Ho as [_ Ho].
    destruct (same_object o o') eqn:Es; [|reflexivity].
    rewrite (same_object_in_bucket proj name _ _ Es) in Ho. congruence.
Qed.

(** A forced deletion ([DeleteAll], by a key allowed to delete and list)
    of an existing bucket, with the collaborators answering and no other
    caller in between: every object of the bucket is deleted and no other
    object, the record is removed, the pieces of the deleted objects are
    queued for deletion (unless the notifier loses them), and the count
    answered is the number of objects the bucket held, together with the
    bucket itself. *)
Theorem DeleteBucket_all_removes (endpoint : Endpoint) (now : Z)
    (req : BucketDeleteRequest.t) (w : World) :
  let cred := BucketDeleteRequest.Header req in
  let name := BucketDeleteRequest.Name req in
  allows cred {| ActOp := ActionDelete; ActBucket := name; ActTime := now |} = true ->
  allows cred {| ActOp := ActionList; ActBucket := name; ActTime := now |} = true ->
  BucketDeleteRequest.DeleteAll req = true ->
  validateBucket name = None ->
  f_get (faults w) = false -> f_empty (faults w) = false -> f_delete (faults w) = false ->
  f_walk (faults w) = None ->
  existsb (bucket_at (cr_project cred) name) (catalog w) = true ->
  exists resp w',
    DeleteBucket endpoint id now req w = (Ok resp, w')
    /\ DeletedObjectsCount resp
       = Z.of_nat (List.length (filter (in_bucket (cr_project cred) name) (objects w)))
    /\ (exists pb, DeleteBucketField resp = Some pb /\ Pb.Name pb = name
                   /\ has_defaults endpoint pb)
    /\ catalog w' = filter (fun e => negb (bucket_at (cr_project cred) name e)) (catalog w)
    /\ objects w' = filter (fun o => negb (in_bucket (cr_project cred) name o)) (objects w)
    /\ piece_queue w'
       = piece_queue w ++ (if f_pieces (faults w) then []
                           else List.concat (map ob_pieces
                                  (filter (in_bucket (cr_project cred) name) (objects w)))).
Proof.
  intros cred name Hd Hl Hall Hv Hg He Hx Hw Hb.
  destruct (find_of_existsb _ _ Hb) as [e Hf].
  pose proof (bucket_at_name _ _ _ (proj2 (find_some _ _ Hf))) as Hn.
  destruct (convert_nonempty endpoint (snd e)) as (pb & Hcv & Hpn & _ & Hdef).
  { rewrite Hn. apply validateBucket_nonempty. exact Hv. }
  unfold DeleteBucket. glue. fold cred name.
  rewrite (validateAuthN_delete _ _ _ Hd), Hl.
  destruct (allows cred {| ActOp := ActionRead; ActBucket := name; ActTime := now |});
  glue; rewrite Hv; glue; unfold GetMinimalBucket; rewrite Hg, Hf; glue; rewrite Hcv; glue;
  unfold deleteBucket, isBucketEmpty, BucketEmpty; glue; rewrite He; glue;
  destruct (existsb (in_bucket (cr_project cred) name) (objects w)) eqn:Ho; glue.
  all: match goal with
       | Ho : existsb (in_bucket _ _) _ = true |- _ =>
           rewrite Hall; glue;
           unfold deleteBucketNotEmpty, deleteBucketObjects, metabase_DeleteBucketObjects; glue;
           rewrite Hw, drain_cb_all; glue; unfold id;
           unfold deleteBucket, isBucketEmpty, BucketEmpty, buckets_DeleteBucket; glue; simpl;
           rewrite He, filter_forallb_in_bucket, existsb_filter_negb; glue; simpl;
           rewrite Hx, Hb; glue
       | Ho : existsb (in_bucket _ _) _ = false |- _ =>
           unfold buckets_DeleteBucket; glue; rewrite Hx, Hb; glue;
           assert (Hk : filter (fun o => if in_bucket (cr_project cred) name o then false else true)
                          (objects w) = objects w) by exact (filter_negb_none _ _ Ho);
           rewrite (filter_none _ _ Ho), Hk
       end;
  do 2 eexists; (split; [reflexivity|]); simpl;
  (split; [reflexivity|]);
  (split; [exists pb; split; [reflexivity|split; [congruence|exact Hdef]]|]);
  (split; [reflexivity|split; [reflexivity|]]);
  destruct (f_pieces (faults w)); rewrite ?app_nil_r; reflexivity.
Qed.

Lemma DeleteBucket_all_removes_witness :
  exists resp w',
    DeleteBucket ep0 id 0 (del_req [ActionDelete; ActionList] true) world0 = (Ok resp, w')
    /\ DeletedObjectsCount resp = 3
    /\ (exists pb, DeleteBucketField resp = Some pb /\ Pb.Name pb = "cakes"
                   /\ has_defaults ep0 pb)
    /\ catalog w' = [] /\ objects w' = [] /\ piece_queue w' = [10; 11; 12].
Proof.
  refine (DeleteBucket_all_removes ep0 0 (del_req [ActionDelete; ActionList] true) world0
            _ _ _ _ _ _ _ _ _); vm_compute; reflexivity.
Defined.


(** The block size of a wire bucket is the product of the erasure share
    size and the required share count computed in [int32]: the product
    itself when it fits, the product minus [2^32] when it overflows into
    the upper half. *)
Theorem convertBucketToProto_block_size (b : Buckets.Bucket) (rs : Pb.RedundancyScheme)
    (maxSegmentSize : Z) :
  Buckets.Name b <> EmptyString ->
  let p := Pb.ErasureShareSize rs * Pb.MinReq rs in
  exists pb, convertBucketToProto b rs maxSegmentSize = Ok (Some pb)
    /\ (0 <= p < 2 ^ 31 -> Pb.BlockSize (Pb.DefaultEncryptionParameters pb) = p)
    /\ (2 ^ 31 <= p < 2 ^ 32 -> Pb.BlockSize (Pb.DefaultEncryptionParameters pb) = p - 2 ^ 32).
Proof.
  intros Hn p. unfold convertBucketToProto.
  destruct (Buckets.Name b) as [|c s] eqn:E; [contradiction|]. simpl.
  eexists. split; [reflexivity|]. simpl. fold p. unfold wrap32. split; intros Hp.
  - rewrite Z.mod_small; lia.
  - rewrite <- (Z.mod_unique (p + 2 ^ 31) (2 ^ 32) 1 (p + 2 ^ 31 - 2 ^ 32)); lia.
Qed.

Lemma convertBucketToProto_block_size_witness :
  exists pb, convertBucketToProto {| Buckets.Name := "cakes"; Buckets.CreatedAt := 7 |}
               {| Pb.Type_ := 1; Pb.MinReq := 65536; Pb.Total := 110; Pb.RepairThreshold := 35;
                  Pb.SuccessThreshold := 80; Pb.ErasureShareSize := 49152 |} 0 = Ok (Some pb)
    /\ (0 <= 49152 * 65536 < 2 ^ 31 -> Pb.BlockSize (Pb.DefaultEncryptionParameters pb)
                                        = 49152 * 65536)
    /\ (2 ^ 31 <= 49152 * 65536 < 2 ^ 32 -> Pb.BlockSize (Pb.DefaultEncryptionParameters pb)
                                              = 49152 * 65536 - 2 ^ 32).
Proof.
  refine (convertBucketToProto_block_size _ _ 0 _). discriminate.
Defined.

Lemma In_firstn_In {A} (n : nat) (l : list A) (x : A) : In x (firstn n l) -> In x l.
Proof.
  intros H. rewrite <- (firstn_skipn n l). apply in_or_app. left. exact H.
Qed.

Lemma In_insert_by_name (b x : Buckets.Bucket) (l : list Buckets.Bucket) :
  In x (insert_by_name b l) -> x = b \/ In x l.
Proof.
  induction l as [|y l IH]; simpl.
  - intros [H|[]]. left. symmetry. exact H.
  - destruct (String.leb (Buckets.Name b) (Buckets.Name y)); simpl.
    + intros [H|H]; [left; symmetry; exact H|right; exact H].
    + intros [H|H]; [right; left; exact H|].
      destruct (IH H) as [H'|H']; [left; exact H'|right; right; exact H'].
Qed.

Lemma In_sort_by_name (x : Buckets.Bucket) (l : list Buckets.Bucket) :
  In x (sort_by_name l) -> In x l.
Proof.
  unfold sort_by_name. induction l as [|y l IH]; simpl; [intros []|].
  intros H. destruct (In_insert_by_name _ _ _ H) as [H'|H']; [left; symmetry; exact H'|].
  right. exact (IH H').
Qed.

(** A page of ListBuckets holds at most [Limit] items, and each item is a
    bucket of the key's project, within the key's bucket restriction,
    strictly after the cursor in the direction of the listing. *)
Theorem ListBuckets_page (endpoint : Endpoint) (now : Z) (req : BucketListRequest.t)
    (w w' : World) (resp : BucketListResponse) :
  ListBuckets endpoint now req w = (Ok resp, w') ->
  (List.length (Items resp) <= Z.to_nat (BucketListRequest.Limit req))%nat
  /\ forall it, In it (Items resp) ->
     exists b, In (cr_project (BucketListRequest.Header req), b) (catalog w)
       /\ Pb.ItemName it = Buckets.Name b /\ Pb.ItemCreatedAt it = Buckets.CreatedAt b
       /\ match cr_buckets (BucketListRequest.Header req) with
          | None => True
          | Some l => In (Buckets.Name b) l
          end
       /\ (if 0 <=? BucketListRequest.Direction req
           then String.ltb (BucketListRequest.Cursor req) (Buckets.Name b)
           else String.ltb (Buckets.Name b) (BucketListRequest.Cursor req)) = true.
Proof.
  intros H. unfold ListBuckets, validateAuth, getAllowedBuckets, buckets_ListBuckets in H.
  set (hdr := BucketListRequest.Header req) in *.
  destruct (cr_valid hdr) eqn:Ev,
           (allows hdr {| ActOp := ActionRead; ActBucket := EmptyString; ActTime := now |}) eqn:Ea;
    glue_in H; try discriminate H.
  destruct (f_list (faults w)); simpl in H; [discriminate H|].
  injection H as Hr _. subst resp. simpl. split.
  - rewrite length_map. apply firstn_le_length.
  - intros it Hit. apply in_map_iff in Hit as [b [<- Hb]]. apply In_firstn_In in Hb.
    assert (Hs : In b (sort_by_name (filter (fun b => All (match cr_buckets hdr with
                   | None => {| All := true; AllowedNames := [] |}
                   | Some l => {| All := false; AllowedNames := l |} end)
                   || existsb (String.eqb (Buckets.Name b)) (AllowedNames (match cr_buckets hdr with
                   | None => {| All := true; AllowedNames := [] |}
                   | Some l => {| All := false; AllowedNames := l |} end)))
                   (map snd (filter (fun e => fst e =? cr_project hdr) (catalog w)))))
             /\ (if 0 <=? BucketListRequest.Direction req
                 then String.ltb (BucketListRequest.Cursor req) (Buckets.Name b)
                 else String.ltb (Buckets.Name b) (BucketListRequest.Cursor req)) = true).
    { destruct (0 <=? BucketListRequest.Direction req).
      - apply filter_In in Hb. exact Hb.
      - rewrite <- in_rev in Hb. apply filter_In in Hb. exact Hb. }
    destruct Hs as [Hs Hc]. apply In_sort_by_name, filter_In in Hs. destruct Hs as [Hs Hal].
    apply in_map_iff in Hs as [[q b'] [Hq He]]. simpl in Hq. subst b'.
    apply filter_In in He as [He Hp]. simpl in Hp. apply Z.eqb_eq in Hp. subst q.
    exists b. split; [exact He|split; [reflexivity|split; [reflexivity|split; [|exact Hc]]]].
    destruct (cr_buckets hdr) as [l|]; simpl in Hal; [|exact I].
    apply existsb_exists in Hal as [x [Hx Heq]]. apply String.eqb_eq in Heq. subst x. exact Hx.
Qed.

(** Two projects; a key of project 1 restricted to the bucket "pies". *)
Definition list_world : World :=
  {| catalog := [(1, {| Buckets.Name := "cakes"; Buckets.CreatedAt := 7 |});
                 (2, {| Buckets.Name := "pies"; Buckets.CreatedAt := 3 |});
                 (1, {| Buckets.Name := "pies"; Buckets.CreatedAt := 5 |})];
     objects := []; piece_queue := []; max_override := []; faults := no_faults |}.

Definition list_pies_req : BucketListRequest.t :=
  {| BucketListRequest.Header :=
       {| cr_valid := true; cr_project := 1; cr_ops := [ActionRead];
          cr_buckets := Some ["pies"]; cr_not_after := None |};
     BucketListRequest.Cursor := ""; BucketListRequest.Limit := 10;
     BucketListRequest.Direction := 1 |}.

Definition list_resp0 : BucketListResponse :=
  match fst (ListBuckets ep0 0 list_pies_req list_world) with
  | Ok r => r
  | Err _ => {| Items := []; More := false |}
  end.

Lemma ListBuckets_page_witness :
  (List.length (Items list_resp0) <= 10)%nat
  /\ exists b, In (1, b) (catalog list_world)
       /\ "pies" = Buckets.Name b /\ 5 = Buckets.CreatedAt b
       /\ In (Buckets.Name b) ["pies"] /\ String.ltb "" (Buckets.Name b) = true.
Proof.
  destruct (ListBuckets_page ep0 0 list_pies_req list_world list_world list_resp0
              ltac:(vm_compute; reflexivity)) as [Hl Hi].
  split; [exact Hl|].
  exact (Hi {| Pb.ItemName := "pies"; Pb.ItemCreatedAt := 5 |}
            ltac:(vm_compute; left; reflexivity)).
Defined.

(** A failed CreateBucket changes nothing, except in one case: the record
    was inserted and the attribution update that follows failed; the
    caller then gets Internal while the bucket exists. *)
Theorem CreateBucket_error_effect uuid_New UnmarshalJSON (endpoint : Endpoint) (now : Z)
    (req : BucketCreateRequest.t) (w w' : World) (e : GoError) :
  CreateBucket uuid_New UnmarshalJSON endpoint now req w = (Err e, w') ->
  w' = w
  \/ (e = Status Internal /\ f_attr (faults w) = true
      /\ w' = set_catalog (catalog w ++ [(cr_project (BucketCreateRequest.Header req),
                {| Buckets.Name := BucketCreateRequest.Name req; Buckets.CreatedAt := now |})]) w).
Proof.
  intros H.
  unfold CreateBucket, HasBucket, GetMaxBuckets, CountBuckets, buckets_CreateBucket,
    ensureAttribution, validateAuth, convertBucketToProto in H.
  crunch H; injection H as He Hw; subst e w';
  first [ left; reflexivity
        | right;
          match goal with
          | Hc : convertProtoToBucket _ _ _ _ = Ok ?b |- _ =>
              rewrite (convertProtoToBucket_name _ _ _ _ _ Hc),
                      (convertProtoToBucket_project _ _ _ _ _ Hc)
          end;
          split; [reflexivity|split; [|reflexivity]];
          match goal with Ha : f_attr _ = true |- _ => exact Ha end ].
Qed.

(** [world0] where the attribution update fails. *)
Definition attr_world : World :=
  {| catalog := catalog world0; objects := objects world0; piece_queue := [];
     max_override := [];
     faults := {| f_get := false; f_has := false; f_maxb := false; f_count := false;
                  f_create := false; f_attr := true; f_empty := false; f_delete := false;
                  f_walk := None; f_pieces := false; f_list := false |} |}.

Lemma CreateBucket_error_effect_witness :
  let run := CreateBucket (Ok 42) (fun _ => (0, None)) ep0 5 (create_req "") attr_world in
  fst run = Err (Status Internal)
  /\ (snd run = attr_world
      \/ (Status Internal = Status Internal /\ f_attr (faults attr_world) = true
          /\ snd run = set_catalog (catalog attr_world
                          ++ [(1, {| Buckets.Name := "pies"; Buckets.CreatedAt := 5 |})])
                          attr_world)).
Proof.
  split; [vm_compute; reflexivity|].
  refine (CreateBucket_error_effect (Ok 42) (fun _ => (0, None)) ep0 5 (create_req "")
            attr_world _ (Status Internal) _).
  vm_compute. reflexivity.
Defined.

(** After a successful CreateBucket, the endpoint's CountBuckets of the
    project reports one bucket more than before. *)
Theorem Create_then_Count uuid_New UnmarshalJSON (endpoint : Endpoint) (now : Z)
    (req : BucketCreateRequest.t) (w w' : World) (r : BucketCreateResponse) :
  CreateBucket uuid_New UnmarshalJSON endpoint now req w = (Ok r, w') ->
  f_count (faults w) = false ->
  let proj := cr_project (BucketCreateRequest.Header req) in
  exists n, endpoint_CountBuckets proj w = (Ok (n, None), w)
            /\ endpoint_CountBuckets proj w' = (Ok (n + 1, None), w').
Proof.
  intros H Hc proj.
  destruct (CreateBucket_ok_inv _ _ _ _ _ _ _ _ H) as (_ & _ & Hw & _).
  fold proj in Hw. subst w'.
  exists (bucket_count w proj). unfold endpoint_CountBuckets, CountBuckets. glue.
  simpl. rewrite Hc. split; [reflexivity|].
  unfold bucket_count. rewrite filter_app. simpl. rewrite Z.eqb_refl, List.length_app. simpl.
  do 3 f_equal. lia.
Qed.

Lemma Create_then_Count_witness :
  endpoint_CountBuckets 1 world0 = (Ok (1, None), world0)
  /\ endpoint_CountBuckets 1
       (snd (CreateBucket (Ok 42) (fun _ => (0, None)) ep0 5 (create_req "") world0))
     = (Ok (2, None),
        snd (CreateBucket (Ok 42) (fun _ => (0, None)) ep0 5 (create_req "") world0)).
Proof.
  destruct (Create_then_Count (Ok 42) (fun _ => (0, None)) ep0 5 (create_req "") world0
              (snd (CreateBucket (Ok 42) (fun _ => (0, None)) ep0 5 (create_req "") world0))
              create_resp0 ltac:(vm_compute; reflexivity) ltac:(vm_compute; reflexivity))
    as (n & H1 & H2).
  assert (Hn : n = 1) by (vm_compute in H1; congruence). subst n.
  split; [exact H1|exact H2].
Defined.

(** A key lacking the mandatory action of a request (Read for GetBucket,
    Write for CreateBucket, Delete for DeleteBucket) is refused before any
    collaborator is consulted: Unauthenticated when the key does not
    verify, PermissionDenied otherwise, and the state is unchanged. *)
Theorem mandatory_action_refused uuid_New UnmarshalJSON (endpoint : Endpoint)
    (interleave : World -> World) (now : Z) (greq : BucketGetRequest.t)
    (creq : BucketCreateRequest.t) (dreq : BucketDeleteRequest.t) (w : World) :
  (allows (BucketGetRequest.Header greq)
     {| ActOp := ActionRead; ActBucket := BucketGetRequest.Name greq; ActTime := now |} = false ->
   GetBucket endpoint now greq w
   = (Err (Status (if cr_valid (BucketGetRequest.Header greq)
                   then PermissionDenied else Unauthenticated)), w))
  /\ (allows (BucketCreateRequest.Header creq)
        {| ActOp := ActionWrite; ActBucket := BucketCreateRequest.Name creq; ActTime := now |} = false ->
      CreateBucket uuid_New UnmarshalJSON endpoint now creq w
      = (Err (Status (if cr_valid (BucketCreateRequest.Header creq)
                      then PermissionDenied else Unauthenticated)), w))
  /\ (allows (BucketDeleteRequest.Header dreq)
        {| ActOp := ActionDelete; ActBucket := BucketDeleteRequest.Name dreq; ActTime := now |} = false ->
      DeleteBucket endpoint interleave now dreq w
      = (Err (Status (if cr_valid (BucketDeleteRequest.Header dreq)
                      then PermissionDenied else Unauthenticated)), w)).
Proof.
  split; [|split]; intros Ha.
  - unfold GetBucket, validateAuth. glue. rewrite Ha.
    destruct (cr_valid (BucketGetRequest.Header greq)); reflexivity.
  - unfold CreateBucket, validateAuth. glue. rewrite Ha.
    destruct (cr_valid (BucketCreateRequest.Header creq)); reflexivity.
  - unfold DeleteBucket, validateAuthN. glue. simpl. rewrite Ha. simpl.
    destruct (cr_valid (BucketDeleteRequest.Header dreq)); reflexivity.
Qed.

(** A key of project 1 that does not verify. *)
Definition bad_cred : Credential :=
  {| cr_valid := false; cr_project := 1; cr_ops := [ActionWrite];
     cr_buckets := None; cr_not_after := None |}.

Lemma mandatory_action_refused_witness :
  GetBucket ep0 0 {| BucketGetRequest.Header := cred_of [ActionList];
                     BucketGetRequest.Name := "cakes" |} world0
  = (Err (Status PermissionDenied), world0)
  /\ CreateBucket (Ok 42) (fun _ => (0, None)) ep0 0
       {| BucketCreateRequest.Header := bad_cred;
          BucketCreateRequest.Name := "pies";
          BucketCreateRequest.PartnerId := "";
          BucketCreateRequest.PathCipher := ENC_NULL;
          BucketCreateRequest.DefaultSegmentSize := 0;
          BucketCreateRequest.DefaultRedundancyScheme := None;
          BucketCreateRequest.DefaultEncryptionParameters := None |} world0
     = (Err (Status Unauthenticated), world0)
  /\ DeleteBucket ep0 id 0 (del_req [ActionRead; ActionList] true) world0
     = (Err (Status PermissionDenied), world0).
Proof.
  split; [|split];
  [ refine (proj1 (mandatory_action_refused (Ok 42) (fun _ => (0, None)) ep0 id 0 _
                     (create_req "") (del_req [] false) world0) _)
  | refine (proj1 (proj2 (mandatory_action_refused (Ok 42) (fun _ => (0, None)) ep0 id 0
                     (get_req "cakes") _ (del_req [] false) world0)) _)
  | refine (proj2 (proj2 (mandatory_action_refused (Ok 42) (fun _ => (0, None)) ep0 id 0
                     (get_req "cakes") (create_req "") _ world0)) _) ];
  vm_compute; reflexivity.
Defined.
